(** * Order store of the Echo Services bot: cache, file and handlers

    A shallow embedding of the order-keeping code of the bot: the Discord
    command handlers, the button handler and the [POST /inquiry] route,
    with [loadOrders] / [saveOrders] underneath.  The two revisions of the
    bot share this code word for word.  The older synchronous variant found
    in [backend_additions.js], which has no cache, is embedded in the module
    [Additions].

    Conventions of the embedding.
    - JavaScript arrays are heap objects.  [ordersCache] holds a reference,
      [loadOrders] hands that same reference to its caller, and the handlers
      mutate the array in place before passing it to [saveOrders].  The heap
      is a list of arrays addressed by allocation index.
    - The order objects inside an array are kept by value: no handler lets
      two live arrays share an order object.
    - [orders.json] is represented by what [fs.readFile] followed by
      [JSON.parse] makes of it: no file, text that does not parse, or an
      array of orders.  [JSON.stringify] followed by [fs.writeFile] stores
      the array it was given.  Text that parses to something other than an
      array of orders is not represented.
    - Everything a handler takes from its environment (the clock, the random
      identifier, whether the disk and the chat gateway answer) is an
      explicit input, gathered in [env].
    - The handlers are [async]; they are taken one at a time, each running
      to its end before the next one starts. *)

From Stdlib Require Import ZArith Ascii String DecimalString.
From stdpp Require Import base option list.

Local Open Scope string_scope.
Local Open Scope list_scope.
Local Open Scope Z_scope.

(** ** Orders *)

(** The object pushed by [POST /inquiry]; [paidAt] is [null] or an ISO
    timestamp. *)
Record Order := mkOrder {
  uuid            : string;
  status          : string;
  payment         : string;
  discordUsername : string;
  clientDiscordId : string;
  serverName      : string;
  serverInvite    : string;
  serviceType     : string;
  budget          : string;
  paymentMethod   : string;
  projectDetails  : string;
  createdAt       : string;
  paidAt          : option string;
  notes           : string
}.

(** Field assignments [o.status = v], [o.payment = v], [o.paidAt = v],
    [o.notes = v]. *)
Definition set_status (v : string) (o : Order) : Order :=
  mkOrder (uuid o) v (payment o) (discordUsername o) (clientDiscordId o)
    (serverName o) (serverInvite o) (serviceType o) (budget o)
    (paymentMethod o) (projectDetails o) (createdAt o) (paidAt o) (notes o).

Definition set_payment (v : string) (o : Order) : Order :=
  mkOrder (uuid o) (status o) v (discordUsername o) (clientDiscordId o)
    (serverName o) (serverInvite o) (serviceType o) (budget o)
    (paymentMethod o) (projectDetails o) (createdAt o) (paidAt o) (notes o).

Definition set_paidAt (v : option string) (o : Order) : Order :=
  mkOrder (uuid o) (status o) (payment o) (discordUsername o)
    (clientDiscordId o) (serverName o) (serverInvite o) (serviceType o)
    (budget o) (paymentMethod o) (projectDetails o) (createdAt o) v (notes o).

Definition set_notes (v : string) (o : Order) : Order :=
  mkOrder (uuid o) (status o) (payment o) (discordUsername o)
    (clientDiscordId o) (serverName o) (serverInvite o) (serviceType o)
    (budget o) (paymentMethod o) (projectDetails o) (createdAt o) (paidAt o) v.

(** ** The pieces of the JavaScript runtime the handlers use *)

(** [!s] on a string: only the empty string is falsy. *)
Definition falsy (s : string) : bool :=
  match s with EmptyString => true | String _ _ => false end.

(** [a || b] on strings. *)
Definition or_else (a b : string) : string := if falsy a then b else a.

(** [s.startsWith(p)]: [p] is compared with the head of [s] character by
    character. *)
Fixpoint startsWith (s p : string) {struct p} : bool :=
  match p with
  | EmptyString => true
  | String c p' =>
      match s with
      | EmptyString => false
      | String d s' => if Ascii.eqb d c then startsWith s' p' else false
      end
  end.

(** [xs.findIndex(p)]; [None] stands for the [-1] of JavaScript. *)
Fixpoint findIndex {A : Type} (p : A -> bool) (xs : list A) : option nat :=
  match xs with
  | [] => None
  | x :: rest => if p x then Some 0%nat else S <$> findIndex p rest
  end.

(** [xs.find(p)]; [None] stands for [undefined]. *)
Fixpoint find {A : Type} (p : A -> bool) (xs : list A) : option A :=
  match xs with
  | [] => None
  | x :: rest => if p x then Some x else find p rest
  end.

(** [xs.findLastIndex(p)]. *)
Fixpoint findLastIndex {A : Type} (p : A -> bool) (xs : list A) : option nat :=
  match xs with
  | [] => None
  | x :: rest =>
      match findLastIndex p rest with
      | Some i => Some (S i)
      | None => if p x then Some 0%nat else None
      end
  end.

(** [xs.slice(start)]: a negative [start] counts from the end and is clamped
    at the first element, a positive one is clamped at the length. *)
Definition slice {A : Type} (start : Z) (xs : list A) : list A :=
  let len := Z.of_nat (length xs) in
  let k := if start <? 0 then Z.max (len + start) 0 else Z.min start len in
  drop (Z.to_nat k) xs.

(** ** Configuration constants *)

Definition MAX_ORDERS_MEMORY : Z := 500.
Definition CACHE_TTL : Z := 30000.

(** ** The process state *)

Definition ref := nat.

(** Content of [orders.json] as the reader sees it. *)
Inductive disk :=
  | NoFile                          (* [fs.readFile] rejects *)
  | Garbage                         (* [JSON.parse] throws on the text *)
  | Json (orders : list Order).     (* the text parses to this array *)

Record world := mkWorld {
  heap           : list (list Order);  (* array objects *)
  ordersCache    : option ref;         (* [null] or an array *)
  lastOrdersLoad : Z;
  ordersFile     : disk;
  fsWrites       : list (list Order)   (* payloads of the completed
                                          [fs.writeFile] calls, oldest first *)
}.

(** The state of a freshly started process over a given file. *)
Definition boot (f : disk) : world := mkWorld [] None 0 f [].

(** The array the cache points at, if any. *)
Definition cached (w : world) : option (list Order) :=
  match ordersCache w with
  | Some r => heap w !! r
  | None => None
  end.

(** Every reference held by the cache points into the heap. *)
Definition wf (w : world) : Prop :=
  match ordersCache w with
  | Some r => is_Some (heap w !! r)
  | None => True
  end.

(** ** Computations that change the state and may throw *)

Inductive error := DiskError | ChannelError | TypeError.

Inductive result (A : Type) :=
  | Ok (a : A)
  | Throw (err : error).
Arguments Ok {A} a.
Arguments Throw {A} err.

(** A thrown error keeps the state reached so far. *)
Definition M (A : Type) : Type := world -> result A * world.

Definition ret {A : Type} (a : A) : M A := fun w => (Ok a, w).

Definition throw {A : Type} (err : error) : M A := fun w => (Throw err, w).

Definition bind {A B : Type} (m : M A) (k : A -> M B) : M B :=
  fun w =>
    match m w with
    | (Ok a, w') => k a w'
    | (Throw err, w') => (Throw err, w')
    end.

Notation "x <- m ;; k" := (bind m (fun x => k))
  (at level 100, m at next level, right associativity).
Notation "m ;;; k" := (bind m (fun _ => k))
  (at level 100, right associativity).

(** [try { m } catch { h }]. *)
Definition try_catch {A : Type} (m : M A) (h : error -> M A) : M A :=
  fun w =>
    match m w with
    | (Ok a, w') => (Ok a, w')
    | (Throw err, w') => h err w'
    end.

(** A new array object. *)
Definition alloc (xs : list Order) : M ref :=
  fun w =>
    (Ok (length (heap w)),
     mkWorld (heap w ++ [xs]) (ordersCache w) (lastOrdersLoad w)
       (ordersFile w) (fsWrites w)).

(** The elements of the array behind a reference. *)
Definition deref (r : ref) : M (list Order) :=
  fun w =>
    match heap w !! r with
    | Some xs => (Ok xs, w)
    | None => (Throw TypeError, w)
    end.

(** [orders[i].field = v], written as the field update [f]; assigning to a
    field of [undefined] throws. *)
Definition assign (r : ref) (i : nat) (f : Order -> Order) : M unit :=
  fun w =>
    match heap w !! r with
    | Some xs =>
        match xs !! i with
        | Some o =>
            (Ok tt,
             mkWorld (<[r := <[i := f o]> xs]> (heap w)) (ordersCache w)
               (lastOrdersLoad w) (ordersFile w) (fsWrites w))
        | None => (Throw TypeError, w)
        end
    | None => (Throw TypeError, w)
    end.

(** [orders.push(o)]. *)
Definition push (r : ref) (o : Order) : M unit :=
  fun w =>
    match heap w !! r with
    | Some xs =>
        (Ok tt,
         mkWorld (<[r := xs ++ [o]]> (heap w)) (ordersCache w)
           (lastOrdersLoad w) (ordersFile w) (fsWrites w))
    | None => (Throw TypeError, w)
    end.

(** [ordersCache = v; lastOrdersLoad = now]. *)
Definition set_cache (r : ref) (now : Z) : M unit :=
  fun w =>
    (Ok tt, mkWorld (heap w) (Some r) now (ordersFile w) (fsWrites w)).

(** [fs.readFile] then [JSON.parse]: a new array, or a throw. *)
Definition read_orders_file : M ref :=
  fun w =>
    match ordersFile w with
    | Json xs => alloc xs w
    | NoFile | Garbage => (Throw DiskError, w)
    end.

(** [fs.writeFile(ORDERS_FILE, JSON.stringify(orders, null, 2))].  The
    environment decides whether the write goes through; a write that is
    rejected leaves the file as it was. *)
Definition write_orders_file (ok : bool) (xs : list Order) : M unit :=
  fun w =>
    if ok then
      (Ok tt,
       mkWorld (heap w) (ordersCache w) (lastOrdersLoad w) (Json xs)
         (fsWrites w ++ [xs]))
    else (Throw DiskError, w).

(** ** The cache in front of the file *)

(** [loadOrders()], with [now] the value of [Date.now()]. *)
Definition loadOrders (now : Z) : M ref :=
  fun w =>
    let reload :=
      try_catch
        (orders <- read_orders_file ;;
         xs <- deref orders ;;
         orders <- (if MAX_ORDERS_MEMORY <? Z.of_nat (length xs)
                    then alloc (slice (- MAX_ORDERS_MEMORY) xs)
                    else ret orders) ;;
         set_cache orders now ;;;
         ret orders)
        (fun _ =>
           c <- alloc [] ;;
           set_cache c now ;;;
           alloc []) in
    match ordersCache w with
    | Some r =>
        if now - lastOrdersLoad w <? CACHE_TTL then (Ok r, w) else reload w
    | None => reload w
    end.

(** [saveOrders(orders)], with [now] the value of [Date.now()] and [ok]
    the fate of the write. *)
Definition saveOrders (now : Z) (ok : bool) (orders : ref) : M unit :=
  set_cache orders now ;;;
  xs <- deref orders ;;
  write_orders_file ok xs.

(** ** What a handler takes from its environment *)

Record env := mkEnv {
  now_load    : Z;       (* [Date.now()] as read by [loadOrders] *)
  now_save    : Z;       (* [Date.now()] as read by [saveOrders] *)
  write_ok    : bool;    (* does [fs.writeFile] resolve *)
  randomUUID  : string;  (* the value of [randomUUID()] *)
  toISOString : string;  (* the value of [new Date().toISOString()] *)
  channel_ok  : bool;    (* does [getChannel()] resolve *)
  send_ok     : bool     (* does [channel.send] resolve *)
}.

(** ** Owner commands

    The handlers are taken past the owner check and the command dispatch;
    [id] is [args[1]] and the text argument is [args.slice(2).join(" ")],
    the empty string standing for a missing argument.  A handler returns the
    message it passes to [msg.reply]. *)

Inductive reply :=
  | Usage
  | NoOrderFound (id : string)
  | NoOrders
  | OrderList (shown : list Order) (total : nat)
  | OrderCard (o : Order)
  | Marked (paid : bool) (o : Order)
  | StatusSet (o : Order)
  | NoteSaved (o : Order)
  | ButtonsUpdated (accepted : bool) (discordId : string)
  | DmLink (discordId : string)
  | ButtonFailed.

(** [o => o.uuid.startsWith(id)]. *)
Definition has_prefix (id : string) (o : Order) : bool := startsWith (uuid o) id.

(** [s.toLowerCase()] on a string of ASCII characters: the letters A to Z
    become a to z and every other character stays.  A string is a sequence
    of bytes here, and a byte above 127 is part of a character outside
    ASCII; [String.prototype.toLowerCase] folds the cased letters among
    those too, which this function leaves as they are.  What is stated
    about the filter of [!orders] is stated for ASCII text. *)
Definition lower_ascii (c : ascii) : ascii :=
  let n := nat_of_ascii c in
  if ((65 <=? n) && (n <=? 90))%nat then ascii_of_nat (n + 32) else c.

Fixpoint toLowerCase (s : string) : string :=
  match s with
  | EmptyString => EmptyString
  | String c s' => String (lower_ascii c) (toLowerCase s')
  end.

(** [!orders [filter]]: the last ten orders, of the given status if any. *)
Definition cmd_orders (e : env) (filter : string) : M reply :=
  orders <- loadOrders (now_load e) ;;
  xs <- deref orders ;;
  let filtered :=
    if falsy filter then xs
    else List.filter
           (fun o => String.eqb (toLowerCase (status o)) (toLowerCase filter))
           xs in
  match filtered with
  | [] => ret NoOrders
  | _ => ret (OrderList (slice (-10) filtered) (length filtered))
  end.

(** [!order <uuid>]. *)
Definition cmd_order (e : env) (id : string) : M reply :=
  if falsy id then ret Usage else
  orders <- loadOrders (now_load e) ;;
  xs <- deref orders ;;
  match find (has_prefix id) xs with
  | None => ret (NoOrderFound id)
  | Some order => ret (OrderCard order)
  end.

(** The element at [idx] after the handler's assignments, for the reply. *)
Definition element (orders : ref) (idx : nat) : M Order :=
  xs <- deref orders ;;
  match xs !! idx with
  | Some o => ret o
  | None => throw TypeError
  end.

(** [!paid <uuid>] and [!unpaid <uuid>]; [paid] is [cmd === "paid"]. *)
Definition cmd_paid (e : env) (paid : bool) (id : string) : M reply :=
  if falsy id then ret Usage else
  orders <- loadOrders (now_load e) ;;
  xs <- deref orders ;;
  match findIndex (has_prefix id) xs with
  | None => ret (NoOrderFound id)
  | Some idx =>
      assign orders idx (set_payment (if paid then "✅ Paid" else "⏳ Unpaid")) ;;;
      assign orders idx (set_paidAt (if paid then Some (toISOString e) else None)) ;;;
      saveOrders (now_save e) (write_ok e) orders ;;;
      o <- element orders idx ;;
      ret (Marked paid o)
  end.

(** [!setstatus <uuid> <status>]. *)
Definition cmd_setstatus (e : env) (id st : string) : M reply :=
  if falsy id || falsy st then ret Usage else
  orders <- loadOrders (now_load e) ;;
  xs <- deref orders ;;
  match findIndex (has_prefix id) xs with
  | None => ret (NoOrderFound id)
  | Some idx =>
      assign orders idx (set_status st) ;;;
      saveOrders (now_save e) (write_ok e) orders ;;;
      o <- element orders idx ;;
      ret (StatusSet o)
  end.

(** [!note <uuid> <text>]. *)
Definition cmd_note (e : env) (id note : string) : M reply :=
  if falsy id || falsy note then ret Usage else
  orders <- loadOrders (now_load e) ;;
  xs <- deref orders ;;
  match findIndex (has_prefix id) xs with
  | None => ret (NoOrderFound id)
  | Some idx =>
      assign orders idx (set_notes note) ;;;
      saveOrders (now_save e) (write_ok e) orders ;;;
      o <- element orders idx ;;
      ret (NoteSaved o)
  end.

(** ** The accept / decline buttons *)

Inductive action := accept | decline | dm.

(** [orders[i].clientDiscordId === discordId && orders[i].status === "Pending"]. *)
Definition pending_of (discordId : string) (o : Order) : bool :=
  String.eqb (clientDiscordId o) discordId && String.eqb (status o) "Pending".

(** The loop [for (let i = orders.length - 1; i >= 0; i--)], entered with
    [n = orders.length]: it looks at the indices [n - 1] down to [0] and
    breaks at the first hit. *)
Fixpoint scan_pending (discordId : string) (orders : list Order) (n : nat)
  : option nat :=
  match n with
  | O => None
  | S i =>
      match orders !! i with
      | Some o =>
          if pending_of discordId o then Some i
          else scan_pending discordId orders i
      | None => scan_pending discordId orders i
      end
  end.

(** [action === "accept" ? "Accepted" : "Declined"] and the matching flag
    of the disabled button. *)
Definition verdict (a : action) : string :=
  match a with accept => "Accepted" | _ => "Declined" end.

Definition accepted (a : action) : bool :=
  match a with accept => true | _ => false end.

(** The [interactionCreate] handler past the owner check.  Whatever is
    thrown inside is caught and answered with an error message. *)
Definition on_button (e : env) (a : action) (discordId : string) : M reply :=
  try_catch
    (match a with
     | accept | decline =>
         orders <- loadOrders (now_load e) ;;
         xs <- deref orders ;;
         (match scan_pending discordId xs (length xs) with
          | Some idx =>
              assign orders idx (set_status (verdict a)) ;;;
              saveOrders (now_save e) (write_ok e) orders
          | None => ret tt
          end) ;;;
         ret (ButtonsUpdated (accepted a) discordId)
     | dm => ret (DmLink discordId)
     end)
    (fun _ => ret ButtonFailed).

(** ** The inquiry route *)

(** The fields the route takes from the request body, each one a string;
    a field that is absent is the empty string, which the checks of the
    route treat alike.  A body whose fields are numbers or objects is not
    represented. *)
Record inquiry := mkInquiry {
  q_discordUsername : string;
  q_clientDiscordId : string;
  q_serverName      : string;
  q_serverInvite    : string;
  q_serverType      : string;
  q_budget          : string;
  q_paymentMethod   : string;
  q_projectDetails  : string
}.

Inductive response :=
  | MissingFields            (* 400 *)
  | InvalidDiscordId         (* 400 *)
  | Received (orderId : string) (isCustomBudget : bool)   (* 200 *)
  | ServerError.             (* 500 *)

(** [\d]. *)
Definition is_digit (c : ascii) : bool :=
  let n := nat_of_ascii c in ((48 <=? n) && (n <=? 57))%nat.

(** [id && /^\d{17,20}$/.test(String(id))]. *)
Definition isValidSnowflake (id : string) : bool :=
  negb (falsy id)
  && forallb is_digit (list_ascii_of_string id)
  && ((17 <=? String.length id) && (String.length id <=? 20))%nat.

(** The check on the request body. *)
Definition all_present (b : inquiry) : bool :=
  negb (falsy (q_discordUsername b) || falsy (q_clientDiscordId b)
        || falsy (q_serverName b) || falsy (q_serverType b)
        || falsy (q_budget b) || falsy (q_paymentMethod b)
        || falsy (q_projectDetails b)).

Definition valid (b : inquiry) : bool :=
  all_present b && isValidSnowflake (q_clientDiscordId b).

(** [getChannel()] and [channel.send(...)], as far as the order store is
    concerned: they resolve or they throw. *)
Definition getChannel (e : env) : M unit :=
  if channel_ok e then ret tt else throw ChannelError.

Definition channel_send (e : env) : M unit :=
  if send_ok e then ret tt else throw ChannelError.

(** The object literal handed to [orders.push]. *)
Definition new_order (e : env) (b : inquiry) : Order :=
  let isCustomBudget := String.eqb (q_budget b) "Custom — DM me" in
  let budgetDisplay := if isCustomBudget then "Custom (to discuss)" else q_budget b in
  {| uuid := randomUUID e;
     status := "Pending";
     payment := "⏳ Unpaid";
     discordUsername := q_discordUsername b;
     clientDiscordId := q_clientDiscordId b;
     serverName := q_serverName b;
     serverInvite := or_else (q_serverInvite b) "Not provided";
     serviceType := q_serverType b;
     budget := budgetDisplay;
     paymentMethod := q_paymentMethod b;
     projectDetails := q_projectDetails b;
     createdAt := toISOString e;
     paidAt := None;
     notes := "" |}.

(** The part of the route that creates the order: generate the identifier,
    load, push, save. *)
Definition create_order (e : env) (b : inquiry) : M Order :=
  let o := new_order e b in
  orders <- loadOrders (now_load e) ;;
  push orders o ;;;
  saveOrders (now_save e) (write_ok e) orders ;;;
  ret o.

(** [POST /inquiry]. *)
Definition post_inquiry (e : env) (b : inquiry) : M response :=
  try_catch
    (if negb (all_present b) then ret MissingFields
     else if negb (isValidSnowflake (q_clientDiscordId b)) then ret InvalidDiscordId
     else
       getChannel e ;;;
       o <- create_order e b ;;
       channel_send e ;;;
       ret (Received (uuid o) (String.eqb (q_budget b) "Custom — DM me")))
    (fun _ => ret ServerError).

(** ** Requests and runs *)

Inductive request :=
  | Orders (filter : string)
  | ShowOrder (id : string)
  | Paid (paid : bool) (id : string)
  | SetStatus (id st : string)
  | Note (id note : string)
  | Button (a : action) (discordId : string)
  | Inquiry (b : inquiry).

(** The state a request leaves behind, whether it answered or threw. *)
Definition step (e : env) (q : request) (w : world) : world :=
  match q with
  | Orders filter => snd (cmd_orders e filter w)
  | ShowOrder id => snd (cmd_order e id w)
  | Paid paid id => snd (cmd_paid e paid id w)
  | SetStatus id st => snd (cmd_setstatus e id st w)
  | Note id note => snd (cmd_note e id note w)
  | Button a discordId => snd (on_button e a discordId w)
  | Inquiry b => snd (post_inquiry e b w)
  end.

(** Requests are served one after the other: a handler runs to its end
    before the next one starts. *)
Fixpoint run (trace : list (env * request)) (w : world) : world :=
  match trace with
  | [] => w
  | (e, q) :: rest => run rest (step e q w)
  end.

(** ** The synchronous variant of [backend_additions.js]

    No cache: every handler reads the file, works on the array it got and
    writes it back with [fs.writeFileSync]; nothing is shared between two
    handlers, so arrays are plain values here. *)
Module Additions.

(** [try { return JSON.parse(fs.readFileSync(...)) } catch { return [] }]. *)
Definition loadOrders (f : disk) : list Order :=
  match f with
  | Json xs => xs
  | NoFile | Garbage => []
  end.

(** [fs.writeFileSync(ORDERS_FILE, JSON.stringify(orders, null, 2))]. *)
Definition saveOrders (ok : bool) (orders : list Order) (f : disk)
  : result unit * disk :=
  if ok then (Ok tt, Json orders) else (Throw DiskError, f).

(** The [interactionCreate] handler past the owner check; it has no
    [try], so a failed write escapes. *)
Definition on_button (ok : bool) (a : action) (discordId : string) (f : disk)
  : result reply * disk :=
  match a with
  | dm => (Ok (DmLink discordId), f)
  | _ =>
      let orders := loadOrders f in
      let st := verdict a in
      let done := ButtonsUpdated (accepted a) discordId in
      match findLastIndex (pending_of discordId) orders with
      | Some idx =>
          match saveOrders ok (alter (set_status st) idx orders) f with
          | (Ok _, f') => (Ok done, f')
          | (Throw err, f') => (Throw err, f')
          end
      | None => (Ok done, f)
      end
  end.

End Additions.

(** * The rest of the process *)

(** ** The owner commands of [backend_additions.js]

    The same commands as in the bot, without the cache; [!paid] and
    [!unpaid] are two handlers there, with the same body up to the mark.
    A failed [fs.writeFileSync] escapes the handler. *)
Module Legacy.

(** The requests that reach the order file. *)
Inductive owner_action :=
  | LOrders (filter : string)
  | LShowOrder (id : string)
  | LPaid (paid : bool) (id : string)
  | LSetStatus (id st : string)
  | LNote (id note : string)
  | LButton (a : action) (discordId : string).

(** Find the index, change the element, save, reply. *)
Definition update (ok : bool) (id : string) (f : Order -> Order)
    (k : Order -> reply) (file : disk) : result reply * disk :=
  let orders := Additions.loadOrders file in
  match findIndex (has_prefix id) orders with
  | None => (Ok (NoOrderFound id), file)
  | Some idx =>
      let orders' := alter f idx orders in
      match Additions.saveOrders ok orders' file with
      | (Ok _, file') =>
          match orders' !! idx with
          | Some o => (Ok (k o), file')
          | None => (Throw TypeError, file')
          end
      | (Throw err, file') => (Throw err, file')
      end
  end.

(** [!orders [filter]]. *)
Definition cmd_orders (filter : string) (file : disk) : result reply * disk :=
  let orders := Additions.loadOrders file in
  match orders with
  | [] => (Ok NoOrders, file)
  | _ =>
      let filtered :=
        if falsy filter then orders
        else List.filter
               (fun o => String.eqb (toLowerCase (status o)) (toLowerCase filter))
               orders in
      match filtered with
      | [] => (Ok NoOrders, file)
      | _ => (Ok (OrderList (slice (-10) filtered) (length filtered)), file)
      end
  end.

(** [!order <uuid>]. *)
Definition cmd_order (id : string) (file : disk) : result reply * disk :=
  if falsy id then (Ok Usage, file) else
  match find (has_prefix id) (Additions.loadOrders file) with
  | None => (Ok (NoOrderFound id), file)
  | Some order => (Ok (OrderCard order), file)
  end.

(** [!paid <uuid>] and [!unpaid <uuid>]; [iso] is the value of
    [new Date().toISOString()]. *)
Definition cmd_paid (ok : bool) (iso : string) (paid : bool) (id : string)
    (file : disk) : result reply * disk :=
  if falsy id then (Ok Usage, file) else
  update ok id
    (fun o =>
       set_paidAt (if paid then Some iso else None)
         (set_payment (if paid then "✅ Paid" else "⏳ Unpaid") o))
    (Marked paid) file.

(** [!setstatus <uuid> <status>]. *)
Definition cmd_setstatus (ok : bool) (id st : string) (file : disk)
  : result reply * disk :=
  if falsy id || falsy st then (Ok Usage, file) else
  update ok id (set_status st) StatusSet file.

(** [!note <uuid> <text>]. *)
Definition cmd_note (ok : bool) (id note : string) (file : disk)
  : result reply * disk :=
  if falsy id || falsy note then (Ok Usage, file) else
  update ok id (set_notes note) NoteSaved file.

(** The file a request leaves behind. *)
Definition serve (ok : bool) (iso : string) (q : owner_action) (file : disk) : disk :=
  match q with
  | LOrders filter => snd (cmd_orders filter file)
  | LShowOrder id => snd (cmd_order id file)
  | LPaid paid id => snd (cmd_paid ok iso paid id file)
  | LSetStatus id st => snd (cmd_setstatus ok id st file)
  | LNote id note => snd (cmd_note ok id note file)
  | LButton a d => snd (Additions.on_button ok a d file)
  end.

(** The same request, addressed to the bot. *)
Definition to_request (q : owner_action) : request :=
  match q with
  | LOrders filter => Orders filter
  | LShowOrder id => ShowOrder id
  | LPaid paid id => Paid paid id
  | LSetStatus id st => SetStatus id st
  | LNote id note => Note id note
  | LButton a d => Button a d
  end.

End Legacy.

(** ** Files other than [orders.json]

    What [fs.readFile] followed by [JSON.parse] makes of a file: it is not
    there, its text does not parse, or it parses to a value. *)
Inductive json_file (A : Type) :=
  | Missing
  | Unparsable
  | Holds (a : A).
Arguments Missing {A}.
Arguments Unparsable {A}.
Arguments Holds {A} a.

(** ** Availability *)
Module Status.

Record display := mkDisplay {
  label : string;
  emoji : string;
  color : Z
}.

(** The object [STATUS_DISPLAY], looked up by key. *)
Definition STATUS_DISPLAY (key : string) : option display :=
  if String.eqb key "open" then Some (mkDisplay "Open for orders" "🟢" 0x00e5c4)
  else if String.eqb key "slow" then Some (mkDisplay "Slow — may take longer" "🟡" 0xf5a623)
  else if String.eqb key "closed" then Some (mkDisplay "Closed for orders" "🔴" 0xff4444)
  else None.

(** [let currentStatus = "open"]. *)
Definition initial : string := "open".

(** The branch of the message handler for [!open], [!slow] and [!close]:
    [cmd] is the command name, the state is [currentStatus].  The reply is
    built from the display entry of the new status; reading a field of a
    missing entry throws. *)
Definition on_command (cmd : string) (currentStatus : string)
  : option (result display) * string :=
  if existsb (String.eqb cmd) ["open"; "slow"; "close"] then
    let currentStatus' := if String.eqb cmd "close" then "closed" else cmd in
    match STATUS_DISPLAY currentStatus' with
    | Some s => (Some (Ok s), currentStatus')
    | None => (Some (Throw TypeError), currentStatus')
    end
  else (None, currentStatus).

(** [GET /status]: the status with the label and the emoji of its display
    entry. *)
Definition get_status (currentStatus : string)
  : result (string * string * string) :=
  match STATUS_DISPLAY currentStatus with
  | Some s => Ok (currentStatus, label s, emoji s)
  | None => Throw TypeError
  end.

(** The status after a sequence of commands. *)
Definition after (cmds : list string) : string :=
  fold_left (fun st cmd => snd (on_command cmd st)) cmds initial.

End Status.

(** ** The inquiry channel *)
Module Config.

(** The object kept in [config.json]: the key the program reads, and the
    other keys of the object, each with the text of its value, which the
    program carries along.  A [config.json] that parses holds such an
    object, with a string or nothing under [inquiryChannelId]; text that
    parses to an array, a string, a number or [null] is not represented. *)
Record config := mkConfig {
  inquiryChannelId : option string;
  others           : list (string * string)
}.

Inductive failure :=
  | NotConfigured        (* the error thrown by [getChannel] itself *)
  | FetchFailed.         (* [client.channels.fetch] rejects *)

Inductive setchannel_reply :=
  | SetUsage
  | ChannelSet (id : string)
  | ChannelNotFound.

(** [process.env.INQUIRY_CHANNEL_ID || null]. *)
Definition env_or_null (envId : option string) : option string :=
  match envId with
  | Some s => if falsy s then None else Some s
  | None => None
  end.

(** [loadConfig()]; [envId] is [process.env.INQUIRY_CHANNEL_ID]. *)
Definition loadConfig (file : json_file config) (envId : option string) : config :=
  match file with
  | Holds cfg => cfg
  | Missing | Unparsable => mkConfig (env_or_null envId) []
  end.

(** [saveConfig(data)]. *)
Definition saveConfig (ok : bool) (data : config) (file : json_file config)
  : result unit * json_file config :=
  if ok then (Ok tt, Holds data) else (Throw DiskError, file).

(** [getChannel()]: the identifier it passes to [client.channels.fetch],
    when that call resolves ([fetch] tells for which identifiers). *)
Definition getChannel (fetch : string -> bool) (file : json_file config)
    (envId : option string) : failure + string :=
  match inquiryChannelId (loadConfig file envId) with
  | Some id =>
      if falsy id then inl NotConfigured
      else if fetch id then inr id else inl FetchFailed
  | None => inl NotConfigured
  end.

(** [!setchannel]: [channelId] is the mentioned channel or [args[1]],
    [fetched] the [id] of the channel [client.channels.fetch] resolves to,
    if it resolves.  Everything thrown is answered the same way. *)
Definition cmd_setchannel (channelId : string) (fetched : option string)
    (ok : bool) (file : json_file config) (envId : option string)
  : setchannel_reply * json_file config :=
  if falsy channelId then (SetUsage, file) else
  match fetched with
  | None => (ChannelNotFound, file)
  | Some id =>
      let cfg := loadConfig file envId in
      match saveConfig ok (mkConfig (Some id) (others cfg)) file with
      | (Ok _, file') => (ChannelSet id, file')
      | (Throw _, file') => (ChannelNotFound, file')
      end
  end.

End Config.

(** ** Featured work *)
Module Work.

Record entry := mkEntry {
  id          : string;
  botName     : string;
  description : string;
  serverName  : string;
  invite      : string;
  addedAt     : string
}.

Inductive work_reply :=
  | AddUsage
  | InviteRejected
  | Added (e : entry)
  | RemoveUsage
  | NoEntry (id : string)
  | Removed (e : entry)
  | NoEntries
  | Listing (es : list entry).

(** [loadWork()]. *)
Definition loadWork (file : json_file (list entry)) : list entry :=
  match file with
  | Holds es => es
  | Missing | Unparsable => []
  end.

(** [saveWork(entries)]. *)
Definition saveWork (ok : bool) (entries : list entry)
    (file : json_file (list entry)) : result unit * json_file (list entry) :=
  if ok then (Ok tt, Holds entries) else (Throw DiskError, file).

(** [!addwork]: [parts] is [raw.split("|").map(s => s.trim())], [uuid] the
    value of [randomUUID()], [iso] that of [new Date().toISOString()]. *)
Definition cmd_addwork (uuid iso : string) (ok : bool) (parts : list string)
    (file : json_file (list entry)) : result work_reply * json_file (list entry) :=
  if (length parts <? 4)%nat || existsb falsy parts then (Ok AddUsage, file) else
  match parts with
  | botName :: description :: serverName :: invite :: _ =>
      if negb (startsWith invite "http") then (Ok InviteRejected, file) else
      let entries := loadWork file in
      let e := mkEntry (substring 0 8 uuid) botName description serverName
                 invite iso in
      match saveWork ok (entries ++ [e]) file with
      | (Ok _, file') => (Ok (Added e), file')
      | (Throw err, file') => (Throw err, file')
      end
  | _ => (Throw TypeError, file)
  end.

(** [!removework <id>]. *)
Definition cmd_removework (ok : bool) (arg : string)
    (file : json_file (list entry)) : result work_reply * json_file (list entry) :=
  if falsy arg then (Ok RemoveUsage, file) else
  let entries := loadWork file in
  match findIndex (fun e => String.eqb (id e) arg) entries with
  | None => (Ok (NoEntry arg), file)
  | Some idx =>
      match entries !! idx with
      | Some removed =>
          match saveWork ok (delete idx entries) file with
          | (Ok _, file') => (Ok (Removed removed), file')
          | (Throw err, file') => (Throw err, file')
          end
      | None => (Throw TypeError, file)
      end
  end.

(** [!listwork]. *)
Definition cmd_listwork (file : json_file (list entry)) : work_reply :=
  match loadWork file with
  | [] => NoEntries
  | es => Listing es
  end.

(** [GET /work]. *)
Definition get_work (file : json_file (list entry)) : list entry := loadWork file.

End Work.

(** ** The visit counter *)
Module Visits.

(** The object kept in [visits.json]: its [count], when it has one.  Counts
    are whole numbers; the additions below are those of JavaScript as long
    as the count stays under [2^53]. *)
Record data := mkData {
  count : option Z
}.

Inductive event :=
  | Counted (ok : bool)      (* [POST /visit]; [ok]: the write goes through *)
  | Limited.                 (* the same request, refused by the limiter *)

(** [loadVisits()]. *)
Definition loadVisits (file : json_file data) : data :=
  match file with
  | Holds d => d
  | Missing | Unparsable => mkData (Some 0)
  end.

(** [saveVisits(data)]. *)
Definition saveVisits (ok : bool) (d : data) (file : json_file data)
  : result unit * json_file data :=
  if ok then (Ok tt, Holds d) else (Throw DiskError, file).

(** [data.count || 0]. *)
Definition count_or_zero (d : data) : Z :=
  match count d with
  | Some n => n
  | None => 0
  end.

(** [POST /visit]: the status code and the [count] of the answer. *)
Definition post_visit (ok : bool) (file : json_file data)
  : (Z * option Z) * json_file data :=
  let d := loadVisits file in
  let d' := mkData (Some (count_or_zero d + 1)) in
  match saveVisits ok d' file with
  | (Ok _, file') => ((200, count d'), file')
  | (Throw _, file') => ((500, Some 0), file')
  end.

(** The handler of the limiter: the current count, nothing counted. *)
Definition limited_visit (file : json_file data)
  : (Z * option Z) * json_file data :=
  ((200, count (loadVisits file)), file).

Definition serve (ev : event) (file : json_file data) : json_file data :=
  match ev with
  | Counted ok => snd (post_visit ok file)
  | Limited => snd (limited_visit file)
  end.

(** The number of visits that were counted and written. *)
Definition counted (evs : list event) : Z :=
  Z.of_nat (length (List.filter
                      (fun ev => match ev with Counted true => true | _ => false end)
                      evs)).

End Visits.

(** * Vocabulary of the statements *)

(** ** Observing the store *)

(** Does [loadOrders] answer from the cache at time [now]? *)
Definition cache_fresh (now : Z) (w : world) : bool :=
  match ordersCache w with
  | Some _ => now - lastOrdersLoad w <? CACHE_TTL
  | None => false
  end.

(** What a reload makes of the file: nothing if it cannot be read, its last
    [MAX_ORDERS_MEMORY] orders if it holds more, all of it otherwise. *)
Definition view (f : disk) : list Order :=
  match f with
  | Json xs =>
      if MAX_ORDERS_MEMORY <? Z.of_nat (length xs)
      then slice (- MAX_ORDERS_MEMORY) xs else xs
  | NoFile | Garbage => []
  end.

(** The arrays a reload allocates, in allocation order. *)
Definition reload_arrays (f : disk) : list (list Order) :=
  match f with
  | Json xs =>
      if MAX_ORDERS_MEMORY <? Z.of_nat (length xs)
      then [xs; slice (- MAX_ORDERS_MEMORY) xs] else [xs]
  | NoFile | Garbage => [[]; []]
  end.

(** Position, among them, of the array the reload returns and of the one it
    leaves in the cache. *)
Definition reload_returned (f : disk) : nat :=
  match f with
  | Json xs => if MAX_ORDERS_MEMORY <? Z.of_nat (length xs) then 1 else 0
  | NoFile | Garbage => 1
  end.

Definition reload_kept (f : disk) : nat :=
  match f with
  | Json xs => if MAX_ORDERS_MEMORY <? Z.of_nat (length xs) then 1 else 0
  | NoFile | Garbage => 0
  end.

(** The collection [loadOrders] hands out at time [now]. *)
Definition collection (now : Z) (w : world) : list Order :=
  if cache_fresh now w then default [] (cached w) else view (ordersFile w).

(** What a reader gets at time [now]: the elements of the array
    [loadOrders] returns. *)
Definition read (now : Z) (w : world) : option (list Order) :=
  match loadOrders now w with
  | (Ok r, w') => heap w' !! r
  | (Throw _, _) => None
  end.

(** The orders in the file, if it can be read. *)
Definition on_disk (w : world) : option (list Order) :=
  match ordersFile w with
  | Json xs => Some xs
  | NoFile | Garbage => None
  end.

(** The state after an array has been changed in place and handed to
    [saveOrders]. *)
Definition stored (w1 : world) (r : ref) (xs' : list Order) (now : Z) (ok : bool)
  : world :=
  mkWorld (<[r := xs']> (heap w1)) (Some r) now
    (if ok then Json xs' else ordersFile w1)
    (if ok then fsWrites w1 ++ [xs'] else fsWrites w1).

(** ** Payment fields *)

(** [!paid] and [!unpaid] assign the two fields one after the other. *)
Definition mark (e : env) (paid : bool) (o : Order) : Order :=
  set_paidAt (if paid then Some (toISOString e) else None)
    (set_payment (if paid then "✅ Paid" else "⏳ Unpaid") o).

(** [paidAt] is set exactly when the order is marked paid. *)
Definition payment_ok (o : Order) : Prop :=
  paidAt o <> None <-> payment o = "✅ Paid".

(** The same, of every order of a file that can be read. *)
Definition file_ok (f : disk) : Prop :=
  match f with
  | Json xs => Forall payment_ok xs
  | NoFile | Garbage => True
  end.

(** Every array of the process and the file hold orders that are in order,
    and the cache points at an array. *)
Definition world_ok (w : world) : Prop :=
  wf w /\ Forall (Forall payment_ok) (heap w) /\ file_ok (ordersFile w).

(** The two payment fields of every order of a collection. *)
Definition ledger (xs : list Order) : list (string * option string) :=
  (fun o => (payment o, paidAt o)) <$> xs.

(** The field updates a request may apply to one order. *)
Inductive touches (e : env) : request -> (Order -> Order) -> Prop :=
  | touch_paid paid id : touches e (Paid paid id) (mark e paid)
  | touch_status id st : touches e (SetStatus id st) (set_status st)
  | touch_note id note : touches e (Note id note) (set_notes note)
  | touch_button a d : a <> dm -> touches e (Button a d) (set_status (verdict a)).

(** ** Sample data for the closed instances *)

(** An order with the given identifier, submitter and status. *)
Definition sample (id who st : string) : Order :=
  mkOrder id st "⏳ Unpaid" "client" who "server" "Not provided"
    "Moderation Bot" "$50" "PayPal" "details" "2024-05-01T10:00:00.000Z" None "".

(** An environment in which the clock reads [t] at the load and [t + 1] at
    the save, and the write has the given fate. *)
Definition at_time (t : Z) (ok : bool) : env :=
  mkEnv t (t + 1) ok "7f3c2a10-0000-4000-8000-000000000001"
    "2024-05-02T08:30:00.000Z" true true.

(** Numbered identifiers, none a prefix of another. *)
Definition numbered (n : nat) : string :=
  ("order-" ++ DecimalString.NilEmpty.string_of_uint (Nat.to_uint n) ++ "#")%string.

(** [n] orders as a file would hold them. *)
Definition stock (n : nat) : list Order :=
  List.map (fun i => sample (numbered i) "111111111111111111" "Pending") (seq 0 n).

(** A valid submission. *)
Definition submission : inquiry :=
  mkInquiry "client" "111111111111111111" "server" "" "Moderation Bot"
    "$50" "PayPal" "details".

(** [n] of them, one per second, every write going through. *)
Definition inquiries (n : nat) : list (env * request) :=
  List.map
    (fun i =>
       (mkEnv (1000 * Z.of_nat (S i)) (1000 * Z.of_nat (S i) + 1) true
          (numbered i) "2024-05-02T08:30:00.000Z" true true,
        Inquiry submission))
    (seq 0 n).

(** ** Proof steps *)

(** Replace a handler applied to a state by the right-hand side of an
    equation whose left-hand side is the unfolded handler. *)
Ltac open_handler h E :=
  match type of E with
  | _ = ?rhs =>
      let Hopen := fresh "Hopen" in
      assert (Hopen : h = rhs) by exact E; rewrite Hopen; clear Hopen
  end.

(** ** Further observations *)

(** The cache shows nothing the file does not hold: it is empty, or it
    holds the orders of the file, or the part of them a reload keeps. *)
Definition coherent (w : world) : Prop :=
  cached w = None \/ cached w = on_disk w \/ cached w = Some (view (ordersFile w)).

(** The fields of an order no command assigns. *)
Definition identity (o : Order)
  : string * string * string * string * string * string * string * string
    * string * string :=
  (uuid o, createdAt o, clientDiscordId o, discordUsername o, serverName o,
   serverInvite o, serviceType o, budget o, paymentMethod o, projectDetails o).


(** Text made of ASCII characters only. *)
Definition ascii_only (s : string) : bool :=
  forallb (fun c => (nat_of_ascii c <? 128)%nat) (list_ascii_of_string s).

(** Every write of a run goes through. *)
Definition writes_succeed (trace : list (env * request)) : Prop :=
  Forall (fun eq => write_ok (fst eq) = true) trace.

(** The bot served a sequence of owner requests, and the file the
    cacheless backend leaves after the same requests. *)
Definition as_trace (qs : list (env * Legacy.owner_action)) : list (env * request) :=
  List.map (fun eq => (fst eq, Legacy.to_request (snd eq))) qs.

Fixpoint legacy_run (qs : list (env * Legacy.owner_action)) (file : disk) : disk :=
  match qs with
  | [] => file
  | (e, q) :: rest =>
      legacy_run rest (Legacy.serve (write_ok e) (toISOString e) q file)
  end.

(** The state a run of owner requests keeps: the cache, when it holds
    something, holds the orders of the file, and these are within the
    cap. *)
Definition in_step (w : world) : Prop :=
  wf w /\
  (cached w = None \/ cached w = Some (Additions.loadOrders (ordersFile w))) /\
  Z.of_nat (length (Additions.loadOrders (ordersFile w))) <= MAX_ORDERS_MEMORY.

(** The visits file after a sequence of requests that do not overlap: each
    [POST /visit] has read and written the file before the next one
    reads it. *)
Definition visits_after (evs : list Visits.event) (file : json_file Visits.data)
  : json_file Visits.data :=
  fold_left (fun f ev => Visits.serve ev f) evs file.

(** * Properties *)

(** ** The runtime functions *)

Lemma falsy_empty (s : string) : falsy s = true <-> s = "".
Proof. destruct s; simpl; split; congruence. Qed.

(** [startsWith] holds exactly of the strings that continue the prefix,
    character for character. *)
Lemma startsWith_spec (s p : string) :
  startsWith s p = true <-> exists rest, s = (p ++ rest)%string.
Proof.
  revert s. induction p as [|c p IH]; intros s; simpl.
  - split; [intros _; exists s; reflexivity | reflexivity].
  - destruct s as [|d s].
    + split; [discriminate | intros [rest H]; discriminate].
    + destruct (Ascii.eqb_spec d c) as [->|Hne].
      * rewrite IH. split; intros [rest H]; exists rest; congruence.
      * split; [discriminate | intros [rest H]; congruence].
Qed.

Lemma findIndex_Some {A : Type} (p : A -> bool) (xs : list A) (i : nat) :
  findIndex p xs = Some i <->
  exists x, xs !! i = Some x /\ p x = true /\
            forall j y, (j < i)%nat -> xs !! j = Some y -> p y = false.
Proof.
  revert i. induction xs as [|a xs IH]; intros i; simpl.
  - split; [discriminate | intros (x & H & _); discriminate].
  - destruct (p a) eqn:Hp.
    + split.
      * intros [= <-]. exists a. repeat split; auto. intros j y Hj. lia.
      * intros (x & Hx & Hpx & Hmin). destruct i as [|i]; [reflexivity|].
        specialize (Hmin 0%nat a ltac:(lia) eq_refl). congruence.
    + destruct (findIndex p xs) as [k|] eqn:Hf; simpl.
      * split.
        -- intros [= <-]. destruct (proj1 (IH k) eq_refl) as (x & Hx & Hpx & Hmin).
           exists x. repeat split; auto.
           intros [|j] y Hj Hy; simpl in Hy; [congruence|]. apply (Hmin j); [lia|auto].
        -- intros (x & Hx & Hpx & Hmin). destruct i as [|i]; simpl in Hx; [congruence|].
           f_equal. assert (Some k = Some i) as [= ->]; [|reflexivity].
           apply IH. exists x. repeat split; auto.
           intros j y Hj Hy. apply (Hmin (S j)); [lia|auto].
      * split; [discriminate|].
        intros (x & Hx & Hpx & Hmin). destruct i as [|i]; simpl in Hx; [congruence|].
        exfalso. assert (None = Some i) by
          (apply IH; exists x; repeat split; auto;
           intros j y Hj Hy; apply (Hmin (S j)); [lia|auto]).
        discriminate.
Qed.

Lemma findIndex_None {A : Type} (p : A -> bool) (xs : list A) :
  findIndex p xs = None <-> forall x, x ∈ xs -> p x = false.
Proof.
  induction xs as [|a xs IH]; simpl.
  - split; [intros _ x Hx; inversion Hx | reflexivity].
  - destruct (p a) eqn:Hp.
    + split; [discriminate|]. intros H. specialize (H a ltac:(left)). congruence.
    + destruct (findIndex p xs); simpl.
      * split; [discriminate|]. intros H.
        assert (@None nat = None) as _ by reflexivity.
        exfalso. assert (Some n = None) by (apply IH; intros x Hx; apply H; right; auto).
        discriminate.
      * split; [|reflexivity]. intros _ x Hx.
        apply elem_of_cons in Hx as [->|Hx]; [auto|]. apply (proj1 IH eq_refl); auto.
Qed.

(** [find] returns the element [findIndex] points at. *)
Lemma find_findIndex {A : Type} (p : A -> bool) (xs : list A) :
  find p xs = match findIndex p xs with Some i => xs !! i | None => None end.
Proof.
  induction xs as [|a xs IH]; simpl; [reflexivity|].
  destruct (p a); [reflexivity|]. rewrite IH.
  destruct (findIndex p xs); reflexivity.
Qed.

Lemma scan_pending_Some (d : string) (xs : list Order) (n i : nat) :
  (n <= length xs)%nat ->
  scan_pending d xs n = Some i <->
  (i < n)%nat /\
  exists o, xs !! i = Some o /\ pending_of d o = true /\
            forall j y, (i < j < n)%nat -> xs !! j = Some y -> pending_of d y = false.
Proof.
  induction n as [|n IH]; intros Hn; simpl.
  - split; [discriminate | intros [H _]; lia].
  - destruct (lookup_lt_is_Some_2 xs n ltac:(lia)) as [o Ho]. rewrite Ho.
    destruct (pending_of d o) eqn:Hp.
    + split.
      * intros [= <-]. split; [lia|]. exists o. repeat split; auto. intros j y Hj. lia.
      * intros (Hi & o' & Ho' & Hp' & Hmax).
        destruct (decide (i = n)) as [->|Hne]; [reflexivity|].
        specialize (Hmax n o ltac:(lia) Ho). congruence.
    + rewrite IH by lia. split.
      * intros (Hi & o' & Ho' & Hp' & Hmax). split; [lia|].
        exists o'. repeat split; auto. intros j y Hj Hy.
        destruct (decide (j = n)) as [->|Hne]; [congruence|].
        apply (Hmax j); [lia|auto].
      * intros (Hi & o' & Ho' & Hp' & Hmax).
        assert (i <> n) by (intros ->; congruence).
        split; [lia|]. exists o'. repeat split; auto.
        intros j y Hj Hy. apply (Hmax j); [lia|auto].
Qed.

Lemma scan_pending_None (d : string) (xs : list Order) (n : nat) :
  (n <= length xs)%nat ->
  scan_pending d xs n = None <->
  forall j y, (j < n)%nat -> xs !! j = Some y -> pending_of d y = false.
Proof.
  induction n as [|n IH]; intros Hn; simpl.
  - split; [intros _ j y Hj; lia | reflexivity].
  - destruct (lookup_lt_is_Some_2 xs n ltac:(lia)) as [o Ho]. rewrite Ho.
    destruct (pending_of d o) eqn:Hp.
    + split; [discriminate|]. intros H. specialize (H n o ltac:(lia) Ho). congruence.
    + rewrite IH by lia. split.
      * intros H j y Hj Hy. destruct (decide (j = n)) as [->|Hne]; [congruence|].
        apply (H j); [lia|auto].
      * intros H j y Hj Hy. apply (H j); [lia|auto].
Qed.

(** ** The cache *)

Lemma loadOrders_hit (now : Z) (w : world) (r : ref) :
  ordersCache w = Some r -> now - lastOrdersLoad w < CACHE_TTL ->
  loadOrders now w = (Ok r, w).
Proof.
  intros Hc Ht. unfold loadOrders. rewrite Hc.
  apply Z.ltb_lt in Ht. rewrite Ht. reflexivity.
Qed.

Lemma lookup_app_new {A : Type} (h extra : list A) (k : nat) :
  (h ++ extra) !! (length h + k)%nat = extra !! k.
Proof. rewrite lookup_app_r by lia. f_equal. lia. Qed.

Lemma loadOrders_miss (now : Z) (w : world) :
  cache_fresh now w = false ->
  loadOrders now w =
    (Ok (length (heap w) + reload_returned (ordersFile w))%nat,
     mkWorld (heap w ++ reload_arrays (ordersFile w))
       (Some (length (heap w) + reload_kept (ordersFile w))%nat)
       now (ordersFile w) (fsWrites w)).
Proof.
  intros Hf. unfold cache_fresh in Hf. unfold loadOrders.
  assert (Hgo : forall (b : result ref * world),
            match ordersCache w with
            | Some r => if now - lastOrdersLoad w <? CACHE_TTL then (Ok r, w) else b
            | None => b
            end = b).
  { intros b. destruct (ordersCache w); [rewrite Hf|]; reflexivity. }
  rewrite Hgo. clear Hgo Hf.
  unfold try_catch, bind, read_orders_file, reload_arrays, reload_returned, reload_kept.
  destruct (ordersFile w) as [| |xs] eqn:Hfile.
  - unfold alloc, set_cache. simpl.
    rewrite Hfile, Nat.add_0_r, length_app, <- app_assoc. reflexivity.
  - unfold alloc, set_cache. simpl.
    rewrite Hfile, Nat.add_0_r, length_app, <- app_assoc. reflexivity.
  - unfold alloc, set_cache, deref, ret. simpl.
    replace (length (heap w)) with (length (heap w) + 0)%nat at 1 by lia.
    rewrite lookup_app_new. simpl.
    destruct (MAX_ORDERS_MEMORY <? Z.of_nat (length xs)); simpl.
    + rewrite Hfile, length_app, <- app_assoc. reflexivity.
    + rewrite Hfile, Nat.add_0_r. reflexivity.
Qed.

Lemma reload_returned_lookup (f : disk) :
  reload_arrays f !! reload_returned f = Some (view f).
Proof.
  destruct f as [| |xs]; simpl; try reflexivity.
  destruct (MAX_ORDERS_MEMORY <? Z.of_nat (length xs)); reflexivity.
Qed.

Lemma reload_kept_lookup (f : disk) :
  reload_arrays f !! reload_kept f = Some (view f).
Proof.
  destruct f as [| |xs]; simpl; try reflexivity.
  destruct (MAX_ORDERS_MEMORY <? Z.of_nat (length xs)); reflexivity.
Qed.

(** [loadOrders] always answers: with the cached array while it is fresh,
    with a new array holding the [view] of the file otherwise. *)
Lemma loadOrders_spec (now : Z) (w : world) :
  wf w ->
  exists r w',
    loadOrders now w = (Ok r, w') /\
    heap w' !! r = Some (collection now w) /\
    wf w' /\
    ordersFile w' = ordersFile w /\
    fsWrites w' = fsWrites w /\
    (cache_fresh now w = true -> w' = w) /\
    (cache_fresh now w = false ->
       cached w' = Some (view (ordersFile w)) /\ lastOrdersLoad w' = now).
Proof.
  intros Hwf. unfold collection. destruct (cache_fresh now w) eqn:Hf.
  - unfold cache_fresh in Hf. unfold wf, cached in *.
    destruct (ordersCache w) as [r|] eqn:Hc; [|discriminate].
    apply Z.ltb_lt in Hf. exists r, w.
    rewrite (loadOrders_hit now w r Hc Hf). destruct Hwf as [xs Hxs].
    rewrite Hxs. repeat split; auto; try discriminate.
    unfold wf. rewrite Hc. eauto.
  - rewrite (loadOrders_miss now w Hf). eexists _, _. split; [reflexivity|].
    unfold wf, cached. simpl. rewrite !lookup_app_new.
    rewrite reload_returned_lookup, reload_kept_lookup.
    repeat split; eauto; discriminate.
Qed.

Lemma saveOrders_eq (now : Z) (ok : bool) (r : ref) (w : world) (xs : list Order) :
  heap w !! r = Some xs ->
  saveOrders now ok r w =
    if ok
    then (Ok tt, mkWorld (heap w) (Some r) now (Json xs) (fsWrites w ++ [xs]))
    else (Throw DiskError, mkWorld (heap w) (Some r) now (ordersFile w) (fsWrites w)).
Proof.
  intros Hr. unfold saveOrders, bind, set_cache, deref, write_orders_file. simpl.
  rewrite Hr. destruct ok; reflexivity.
Qed.

(** C1. After [saveOrders] has been called on an array, a [loadOrders]
    that comes less than [CACHE_TTL] later returns that very array, with
    the elements it had when it was saved, and does not touch the state; the
    file is not consulted.  When the write went through, the file holds the
    same sequence. *)
Theorem save_then_load_within_ttl
    (w : world) (orders : ref) (xs : list Order) (t_save t_read : Z) (ok : bool) :
  heap w !! orders = Some xs ->
  t_read - t_save < CACHE_TTL ->
  let w1 := snd (saveOrders t_save ok orders w) in
  loadOrders t_read w1 = (Ok orders, w1) /\
  heap w1 !! orders = Some xs /\
  (ok = true ->
   fst (saveOrders t_save ok orders w) = Ok tt /\ ordersFile w1 = Json xs).
Proof.
  intros Hxs Ht. rewrite (saveOrders_eq t_save ok orders w xs Hxs).
  destruct ok; simpl.
  - split; [apply loadOrders_hit; simpl; auto|]. split; auto.
  - split; [apply loadOrders_hit; simpl; auto|]. split; [auto|discriminate].
Qed.

Lemma save_then_load_within_ttl_witness :
  let w := mkWorld [[sample "abc123" "111111111111111111" "Pending"]]
             None 0 NoFile [] in
  let w1 := snd (saveOrders 5000 true 0%nat w) in
  loadOrders 34999 w1 = (Ok 0%nat, w1) /\
  heap w1 !! 0%nat = Some [sample "abc123" "111111111111111111" "Pending"] /\
  (true = true ->
   fst (saveOrders 5000 true 0%nat w) = Ok tt /\
   ordersFile w1 = Json [sample "abc123" "111111111111111111" "Pending"]).
Proof.
  intros w.
  apply (save_then_load_within_ttl w 0%nat
           [sample "abc123" "111111111111111111" "Pending"] 5000 34999 true).
  - reflexivity.
  - reflexivity.
Defined.

(** C2, as the code has it.  When the write is rejected, [saveOrders] has
    already pointed the cache at the array it was given and stamped it with
    the current time: the call throws, the file and the heap are as before,
    and reads during the next [CACHE_TTL] are answered with the array that
    never reached the file. *)
Theorem failed_write_leaves_cache_updated
    (w : world) (orders : ref) (xs : list Order) (now : Z) :
  heap w !! orders = Some xs ->
  let w1 := snd (saveOrders now false orders w) in
  fst (saveOrders now false orders w) = Throw DiskError /\
  ordersCache w1 = Some orders /\
  lastOrdersLoad w1 = now /\
  cached w1 = Some xs /\
  heap w1 = heap w /\
  ordersFile w1 = ordersFile w /\
  fsWrites w1 = fsWrites w /\
  (forall t_read, t_read - now < CACHE_TTL ->
                  loadOrders t_read w1 = (Ok orders, w1)).
Proof.
  intros Hxs. rewrite (saveOrders_eq now false orders w xs Hxs). simpl.
  unfold cached. simpl. repeat split; auto.
  intros t_read Ht. apply loadOrders_hit; simpl; auto.
Qed.

Lemma failed_write_leaves_cache_updated_witness :
  let o := sample "abc123" "111111111111111111" "Pending" in
  let w := mkWorld [[]; [o]] (Some 0%nat) 1000 NoFile [] in
  let w1 := snd (saveOrders 1001 false 1%nat w) in
  fst (saveOrders 1001 false 1%nat w) = Throw DiskError /\
  ordersCache w1 = Some 1%nat /\
  lastOrdersLoad w1 = 1001 /\
  cached w1 = Some [o] /\
  heap w1 = heap w /\
  ordersFile w1 = ordersFile w /\
  fsWrites w1 = fsWrites w /\
  (forall t_read, t_read - 1001 < CACHE_TTL ->
                  loadOrders t_read w1 = (Ok 1%nat, w1)).
Proof.
  intros o w.
  apply (failed_write_leaves_cache_updated w 1%nat [o] 1001). reflexivity.
Defined.

(** C2, as stated, fails.  On a first run the cache holds an empty array
    loaded at time 1000 and the handler has pushed an order onto the array
    [loadOrders] returned; the write is rejected, and yet the cache now
    holds the unsaved order, stamped 1001. *)
Lemma failed_write_changes_cache :
  let o := sample "abc123" "111111111111111111" "Pending" in
  let w := mkWorld [[]; [o]] (Some 0%nat) 1000 NoFile [] in
  let w1 := snd (saveOrders 1001 false 1%nat w) in
  fst (saveOrders 1001 false 1%nat w) = Throw DiskError /\
  cached w = Some [] /\ cached w1 = Some [o] /\
  lastOrdersLoad w = 1000 /\ lastOrdersLoad w1 = 1001 /\
  ~ (ordersCache w1 = ordersCache w /\ lastOrdersLoad w1 = lastOrdersLoad w).
Proof.
  vm_compute. repeat split; try reflexivity. intros [H _]. discriminate.
Qed.

(** That state is reached by a load on a first run followed by a push on
    the array the load returned. *)
Example first_run_then_push :
  let o := sample "abc123" "111111111111111111" "Pending" in
  (orders <- loadOrders 1000 ;; push orders o) (boot NoFile)
  = (Ok tt, mkWorld [[]; [o]] (Some 0%nat) 1000 NoFile []).
Proof. reflexivity. Qed.

(** Through the inquiry route the same happens: on a first run the failed
    write is answered with a 500 while the order stays in the cache and is
    shown by a later [!order]. *)
Example failed_write_through_inquiry :
  let b := mkInquiry "client" "111111111111111111" "server" "" "Moderation Bot"
             "$50" "PayPal" "details" in
  let e := at_time 1000 false in
  let w1 := snd (post_inquiry e b (boot NoFile)) in
  fst (post_inquiry e b (boot NoFile)) = Ok ServerError /\
  cached w1 = Some [new_order e b] /\
  ordersFile w1 = NoFile /\
  fst (cmd_order (at_time 2000 true) "7f3c" w1) = Ok (OrderCard (new_order e b)).
Proof. vm_compute. repeat split; reflexivity. Qed.

(** ** Retention *)

Lemma slice_last {A : Type} (xs : list A) :
  MAX_ORDERS_MEMORY < Z.of_nat (length xs) ->
  slice (- MAX_ORDERS_MEMORY) xs = drop (length xs - 500) xs /\
  length (slice (- MAX_ORDERS_MEMORY) xs) = 500%nat.
Proof.
  intros H. unfold slice.
  change (- MAX_ORDERS_MEMORY <? 0) with true. cbv iota.
  assert (Z.to_nat (Z.max (Z.of_nat (length xs) + - MAX_ORDERS_MEMORY) 0)
          = (length xs - 500)%nat) as -> by (unfold MAX_ORDERS_MEMORY in *; lia).
  split; [reflexivity|]. rewrite length_drop.
  unfold MAX_ORDERS_MEMORY in H. lia.
Qed.

(** C3, as the code has it.  The cap is applied where [loadOrders] reloads:
    when the cache is empty or has expired and the file holds more than
    [MAX_ORDERS_MEMORY] orders, the call returns and caches the last 500 of
    them, in the order of the file, the older ones left out.  The file is
    not rewritten by the read. *)
Theorem reload_keeps_last_500 (w : world) (now : Z) (xs : list Order) :
  cache_fresh now w = false ->
  ordersFile w = Json xs ->
  MAX_ORDERS_MEMORY < Z.of_nat (length xs) ->
  exists r w' evicted kept,
    loadOrders now w = (Ok r, w') /\
    heap w' !! r = Some kept /\
    cached w' = Some kept /\
    xs = evicted ++ kept /\
    length kept = 500%nat /\
    length evicted = (length xs - 500)%nat /\
    ordersFile w' = Json xs /\
    fsWrites w' = fsWrites w.
Proof.
  intros Hf Hfile Hlen. rewrite (loadOrders_miss now w Hf).
  destruct (slice_last xs Hlen) as [Hs Hl].
  eexists _, _, (take (length xs - 500) xs), (slice (- MAX_ORDERS_MEMORY) xs).
  split; [reflexivity|]. unfold cached. simpl. rewrite !lookup_app_new.
  rewrite reload_returned_lookup, reload_kept_lookup, Hfile. simpl.
  apply Z.ltb_lt in Hlen as Hlt. rewrite Hlt.
  repeat split; auto.
  - rewrite Hs. symmetry. apply take_drop.
  - rewrite length_take. lia.
Qed.

Lemma reload_keeps_last_500_witness :
  cache_fresh 1000 (boot (Json (stock 510))) = false /\
  ordersFile (boot (Json (stock 510))) = Json (stock 510) /\
  MAX_ORDERS_MEMORY < Z.of_nat (length (stock 510)) /\
  exists r w' evicted kept,
    loadOrders 1000 (boot (Json (stock 510))) = (Ok r, w') /\
    heap w' !! r = Some kept /\
    cached w' = Some kept /\
    stock 510 = evicted ++ kept /\
    length kept = 500%nat /\
    length evicted = (length (stock 510) - 500)%nat /\
    ordersFile w' = Json (stock 510) /\
    fsWrites w' = fsWrites (boot (Json (stock 510))).
Proof.
  assert (H1 : cache_fresh 1000 (boot (Json (stock 510))) = false) by reflexivity.
  assert (H2 : ordersFile (boot (Json (stock 510))) = Json (stock 510)) by reflexivity.
  assert (H3 : MAX_ORDERS_MEMORY < Z.of_nat (length (stock 510)))
    by (vm_compute; reflexivity).
  exact (conj H1 (conj H2 (conj H3
           (reload_keeps_last_500 (boot (Json (stock 510))) 1000 (stock 510) H1 H2 H3)))).
Defined.

(** C3, as stated, fails.  Starting without a file, 510 valid inquiries
    arrive one second apart and are all saved.  A read one second after the
    last of them returns 510 orders, beginning with the first one inserted:
    nothing has been evicted, in the cache or in the file. *)
Lemma inserted_510_read_510 :
  let w := run (inquiries 510) (boot NoFile) in
  length <$> read 511000 w = Some 510%nat /\
  (uuid <$> (read 511000 w ≫= head)) = Some (numbered 0) /\
  ordersFile w = Json (default [] (read 511000 w)) /\
  read 511000 w <> Some (slice (- MAX_ORDERS_MEMORY) (default [] (read 511000 w))).
Proof.
  vm_compute. repeat split; try reflexivity. discriminate.
Qed.

(** ** Reading a file that is not there *)

(** C5. When [loadOrders] has to go to the file and the file is missing or
    does not parse, it returns an empty array instead of throwing, and
    caches an empty array; the file is left alone.  The synchronous
    [loadOrders] of [backend_additions.js] returns the empty array as
    well. *)
Theorem read_missing_or_malformed (w : world) (now : Z) :
  cache_fresh now w = false ->
  ordersFile w = NoFile \/ ordersFile w = Garbage ->
  (exists r w',
     loadOrders now w = (Ok r, w') /\
     heap w' !! r = Some [] /\
     cached w' = Some [] /\
     ordersFile w' = ordersFile w) /\
  read now w = Some [] /\
  Additions.loadOrders (ordersFile w) = [].
Proof.
  intros Hf Hbad. unfold read. rewrite (loadOrders_miss now w Hf).
  unfold cached. simpl. rewrite !lookup_app_new.
  rewrite reload_returned_lookup.
  assert (Hv : view (ordersFile w) = []) by (destruct Hbad as [-> | ->]; reflexivity).
  rewrite Hv. split; [|split; [reflexivity | destruct Hbad as [-> | ->]; reflexivity]].
  eexists _, _. split; [reflexivity|]. simpl. rewrite !lookup_app_new.
  rewrite reload_returned_lookup, reload_kept_lookup, Hv. auto.
Qed.

Lemma read_missing_or_malformed_witness :
  cache_fresh 1000 (boot Garbage) = false /\
  (ordersFile (boot Garbage) = NoFile \/ ordersFile (boot Garbage) = Garbage) /\
  (exists r w',
     loadOrders 1000 (boot Garbage) = (Ok r, w') /\
     heap w' !! r = Some [] /\
     cached w' = Some [] /\
     ordersFile w' = ordersFile (boot Garbage)) /\
  read 1000 (boot Garbage) = Some [] /\
  Additions.loadOrders (ordersFile (boot Garbage)) = [].
Proof.
  assert (H1 : cache_fresh 1000 (boot Garbage) = false) by reflexivity.
  assert (H2 : ordersFile (boot Garbage) = NoFile \/ ordersFile (boot Garbage) = Garbage)
    by (right; reflexivity).
  exact (conj H1 (conj H2 (read_missing_or_malformed (boot Garbage) 1000 H1 H2))).
Defined.

(** ** How the handlers go through the store *)

Lemma loadOrders_total (now : Z) (w : world) :
  exists r w1, loadOrders now w = (Ok r, w1).
Proof.
  destruct (cache_fresh now w) eqn:Hf.
  - unfold cache_fresh in Hf. destruct (ordersCache w) as [r|] eqn:Hc; [|discriminate].
    exists r, w. apply loadOrders_hit; [auto | apply Z.ltb_lt; auto].
  - rewrite (loadOrders_miss now w Hf). eauto.
Qed.

(** A load leaves the file and the existing arrays alone; it adds arrays and
    resets the cache only when the cache is not fresh. *)
Lemma loadOrders_frame (now : Z) (w : world) (r : ref) (w1 : world) :
  loadOrders now w = (Ok r, w1) ->
  ordersFile w1 = ordersFile w /\
  fsWrites w1 = fsWrites w /\
  (exists extra, heap w1 = heap w ++ extra) /\
  (cache_fresh now w = true -> w1 = w) /\
  (cache_fresh now w = false ->
     lastOrdersLoad w1 = now /\
     cached w1 = Some (view (ordersFile w)) /\
     heap w1 !! r = Some (view (ordersFile w))).
Proof.
  intros Hload. destruct (cache_fresh now w) eqn:Hf.
  - unfold cache_fresh in Hf. destruct (ordersCache w) as [c|] eqn:Hc; [|discriminate].
    rewrite (loadOrders_hit now w c Hc) in Hload by (apply Z.ltb_lt; auto).
    injection Hload as <- <-. repeat split; auto; try discriminate.
    exists []. rewrite app_nil_r. reflexivity.
  - rewrite (loadOrders_miss now w Hf) in Hload. injection Hload as <- <-.
    unfold cached. simpl. rewrite !lookup_app_new.
    rewrite reload_returned_lookup, reload_kept_lookup.
    repeat split; eauto. discriminate.
Qed.

(** The opening of every handler: load, then look at the elements. *)
Lemma with_collection {A : Type} (now : Z) (w w1 : world) (r : ref)
    (xs : list Order) (k : ref -> list Order -> M A) :
  loadOrders now w = (Ok r, w1) ->
  heap w1 !! r = Some xs ->
  (orders <- loadOrders now ;; ys <- deref orders ;; k orders ys) w = k r xs w1.
Proof.
  intros Hload Hxs. unfold bind at 1. rewrite Hload.
  unfold bind, deref. rewrite Hxs. reflexivity.
Qed.

Lemma lookup_stored (w1 : world) (r : ref) (xs xs' : list Order) (now : Z) (ok : bool) :
  heap w1 !! r = Some xs ->
  heap (stored w1 r xs' now ok) !! r = Some xs' /\
  cached (stored w1 r xs' now ok) = Some xs'.
Proof.
  intros Hxs. unfold cached, stored. simpl.
  rewrite list_lookup_insert_eq by (eapply lookup_lt_Some; eauto). auto.
Qed.

Lemma cached_after_load (now : Z) (w w1 : world) (r : ref) (xs : list Order) :
  loadOrders now w = (Ok r, w1) -> heap w1 !! r = Some xs -> cached w1 = Some xs.
Proof.
  intros Hload Hxs. destruct (loadOrders_frame _ _ _ _ Hload) as (_ & _ & _ & Hfresh & Hstale).
  destruct (cache_fresh now w) eqn:Hf.
  - rewrite (Hfresh eq_refl) in *. unfold cache_fresh in Hf. unfold cached.
    destruct (ordersCache w) as [c|] eqn:Hc; [|discriminate].
    rewrite (loadOrders_hit now w c Hc) in Hload by (apply Z.ltb_lt; auto).
    injection Hload as ->. exact Hxs.
  - destruct (Hstale eq_refl) as (_ & Hc & Hr). congruence.
Qed.

(** One field assignment on [orders[idx]], then [saveOrders], then the
    reply built from [orders[idx]]. *)
Lemma update_then_save (w1 : world) (r : ref) (xs : list Order) (idx : nat)
    (o : Order) (f : Order -> Order) (now : Z) (ok : bool) (k : Order -> reply) :
  heap w1 !! r = Some xs ->
  xs !! idx = Some o ->
  (assign r idx f ;;; saveOrders now ok r ;;; o' <- element r idx ;; ret (k o')) w1 =
  (if ok then Ok (k (f o)) else Throw DiskError,
   stored w1 r (<[idx := f o]> xs) now ok).
Proof.
  intros Hxs Ho. unfold bind at 1. unfold assign. rewrite Hxs, Ho.
  assert (Hr : (r < length (heap w1))%nat) by (eapply lookup_lt_Some; eauto).
  assert (Hi : (idx < length xs)%nat) by (eapply lookup_lt_Some; eauto).
  unfold bind at 1.
  erewrite saveOrders_eq by (simpl; apply list_lookup_insert_eq; auto).
  unfold stored. destruct ok; simpl; [|reflexivity].
  unfold element, deref, ret, bind. simpl.
  rewrite list_lookup_insert_eq by auto.
  rewrite list_lookup_insert_eq by auto. reflexivity.
Qed.

(** Two assignments in a row on the same element are one assignment. *)
Lemma assign_twice {A : Type} (w1 : world) (r : ref) (xs : list Order)
    (idx : nat) (o : Order) (f g : Order -> Order) (m : M A) :
  heap w1 !! r = Some xs ->
  xs !! idx = Some o ->
  (assign r idx f ;;; assign r idx g ;;; m) w1 =
  (assign r idx (fun x => g (f x)) ;;; m) w1.
Proof.
  intros Hxs Ho.
  assert (Hr : (r < length (heap w1))%nat) by (eapply lookup_lt_Some; eauto).
  assert (Hi : (idx < length xs)%nat) by (eapply lookup_lt_Some; eauto).
  unfold bind, assign. rewrite Hxs, Ho. simpl.
  rewrite list_lookup_insert_eq by auto.
  rewrite list_lookup_insert_eq by auto.
  rewrite !list_insert_insert_eq. reflexivity.
Qed.

(** [push], then [saveOrders]. *)
Lemma push_then_save {A : Type} (w1 : world) (r : ref) (xs : list Order)
    (o : Order) (now : Z) (ok : bool) (a : A) :
  heap w1 !! r = Some xs ->
  (push r o ;;; saveOrders now ok r ;;; ret a) w1 =
  (if ok then Ok a else Throw DiskError, stored w1 r (xs ++ [o]) now ok).
Proof.
  intros Hxs.
  assert (Hr : (r < length (heap w1))%nat) by (eapply lookup_lt_Some; eauto).
  unfold bind at 1. unfold push. rewrite Hxs. unfold bind at 1.
  erewrite saveOrders_eq by (simpl; apply list_lookup_insert_eq; auto).
  unfold stored. destruct ok; reflexivity.
Qed.

Lemma falsy_false (s : string) : s <> "" -> falsy s = false.
Proof. destruct s; [congruence | reflexivity]. Qed.

Lemma assign_then_save (w1 : world) (r : ref) (xs : list Order) (idx : nat)
    (o : Order) (f : Order -> Order) (now : Z) (ok : bool) :
  heap w1 !! r = Some xs ->
  xs !! idx = Some o ->
  (assign r idx f ;;; saveOrders now ok r) w1 =
  (if ok then Ok tt else Throw DiskError, stored w1 r (<[idx := f o]> xs) now ok).
Proof.
  intros Hxs Ho. unfold bind. unfold assign. rewrite Hxs, Ho.
  assert (Hr : (r < length (heap w1))%nat) by (eapply lookup_lt_Some; eauto).
  erewrite saveOrders_eq by (simpl; apply list_lookup_insert_eq; auto).
  unfold stored. destruct ok; reflexivity.
Qed.

(** ** Looking an order up by the start of its identifier *)

Lemma find_Some {A : Type} (p : A -> bool) (xs : list A) (x : A) :
  find p xs = Some x <->
  exists i, xs !! i = Some x /\ p x = true /\
            forall j y, (j < i)%nat -> xs !! j = Some y -> p y = false.
Proof.
  rewrite find_findIndex. split.
  - destruct (findIndex p xs) as [i|] eqn:Hi; [|discriminate].
    intros Hx. apply findIndex_Some in Hi as (x' & Hx' & Hp & Hmin).
    exists i. rewrite Hx in Hx'. injection Hx' as <-. auto.
  - intros (i & Hx & Hp & Hmin).
    assert (Hi : findIndex p xs = Some i) by (apply findIndex_Some; eauto).
    rewrite Hi. exact Hx.
Qed.

Lemma find_None {A : Type} (p : A -> bool) (xs : list A) :
  find p xs = None <-> forall x, x ∈ xs -> p x = false.
Proof.
  rewrite find_findIndex, <- findIndex_None.
  destruct (findIndex p xs) as [i|] eqn:Hi; [|tauto].
  apply findIndex_Some in Hi as (x & Hx & _). rewrite Hx.
  split; discriminate.
Qed.

(** C6. [!order <id>] answers with the first order, in the order of the
    collection, whose identifier begins with [id], the comparison being
    exact character for character (so upper and lower case differ); it
    answers "no order found" exactly when no identifier begins with [id].
    The index [findIndex] computes for [!paid], [!unpaid], [!setstatus] and
    [!note] is the index of that same first order. *)
Theorem first_match_by_prefix
    (w w1 : world) (e : env) (id : string) (r : ref) (xs : list Order) :
  id <> "" ->
  loadOrders (now_load e) w = (Ok r, w1) ->
  heap w1 !! r = Some xs ->
  (forall o, has_prefix id o = true <-> exists rest, uuid o = (id ++ rest)%string) /\
  cmd_order e id w =
    (Ok (match find (has_prefix id) xs with
         | Some order => OrderCard order
         | None => NoOrderFound id
         end), w1) /\
  (forall o, find (has_prefix id) xs = Some o <->
     exists i, xs !! i = Some o /\ has_prefix id o = true /\
               forall j y, (j < i)%nat -> xs !! j = Some y -> has_prefix id y = false) /\
  (find (has_prefix id) xs = None <-> forall o, o ∈ xs -> has_prefix id o = false) /\
  (forall i, findIndex (has_prefix id) xs = Some i <->
     exists o, xs !! i = Some o /\ has_prefix id o = true /\
               forall j y, (j < i)%nat -> xs !! j = Some y -> has_prefix id y = false) /\
  find (has_prefix id) xs = findIndex (has_prefix id) xs ≫= (fun i => xs !! i).
Proof.
  intros Hid Hload Hxs. repeat split.
  - apply startsWith_spec.
  - apply startsWith_spec.
  - unfold cmd_order. rewrite (falsy_false id Hid).
    rewrite (with_collection (now_load e) w w1 r xs
               (fun _ ys => match find (has_prefix id) ys with
                            | Some order => ret (OrderCard order)
                            | None => ret (NoOrderFound id)
                            end) Hload Hxs).
    destruct (find (has_prefix id) xs); reflexivity.
  - apply find_Some.
  - apply find_Some.
  - apply find_None.
  - apply find_None.
  - apply findIndex_Some.
  - apply findIndex_Some.
  - rewrite find_findIndex. destruct (findIndex (has_prefix id) xs); reflexivity.
Qed.

Lemma first_match_by_prefix_witness :
  let first := sample "abc123-4d5e" "111111111111111111" "Pending" in
  let second := sample "abcd99-7a8b" "222222222222222222" "Pending" in
  let w := boot (Json [first; second]) in
  "abc" <> "" /\
  cmd_order (at_time 1000 true) "abc" w =
    (Ok (OrderCard first), snd (loadOrders 1000 w)) /\
  cmd_order (at_time 1000 true) "abcd" w =
    (Ok (OrderCard second), snd (loadOrders 1000 w)) /\
  cmd_order (at_time 1000 true) "ABC" w =
    (Ok (NoOrderFound "ABC"), snd (loadOrders 1000 w)) /\
  findIndex (has_prefix "abc") [first; second] = Some 0%nat.
Proof.
  intros first second w.
  assert (Hne : "abc" <> "") by discriminate.
  assert (Hload : loadOrders (now_load (at_time 1000 true)) w
                  = (Ok 0%nat, snd (loadOrders 1000 w))) by reflexivity.
  assert (Hxs : heap (snd (loadOrders 1000 w)) !! 0%nat = Some [first; second])
    by reflexivity.
  pose proof (first_match_by_prefix w (snd (loadOrders 1000 w)) (at_time 1000 true)
                "abc" 0%nat [first; second] Hne Hload Hxs) as (_ & Hcmd & _).
  split; [exact Hne|]. split; [exact Hcmd|].
  repeat split; reflexivity.
Defined.

(** ** Accept and decline *)

Lemma pending_of_spec (d : string) (o : Order) :
  pending_of d o = true <-> clientDiscordId o = d /\ status o = "Pending".
Proof.
  unfold pending_of. rewrite andb_true_iff, !String.eqb_eq. reflexivity.
Qed.

Lemma pending_of_false (d : string) (o : Order) :
  pending_of d o = false <-> ~ (clientDiscordId o = d /\ status o = "Pending").
Proof.
  rewrite <- pending_of_spec. destruct (pending_of d o); split; congruence.
Qed.

Lemma alter_as_insert {A : Type} (f : A -> A) (l : list A) (i : nat) (x : A) :
  l !! i = Some x -> alter f i l = <[i := f x]> l.
Proof.
  revert i. induction l as [|y l IH]; intros [|i] H; simpl in *; try discriminate.
  - injection H as ->. reflexivity.
  - f_equal. apply IH. exact H.
Qed.

(** What the handler does once it has the collection in hand. *)
Lemma on_button_eq (w w1 : world) (e : env) (a : action) (d : string)
    (r : ref) (xs : list Order) :
  a <> dm ->
  loadOrders (now_load e) w = (Ok r, w1) ->
  heap w1 !! r = Some xs ->
  on_button e a d w =
    match scan_pending d xs (length xs) with
    | Some idx =>
        (Ok (if write_ok e then ButtonsUpdated (accepted a) d else ButtonFailed),
         stored w1 r (alter (set_status (verdict a)) idx xs) (now_save e) (write_ok e))
    | None => (Ok (ButtonsUpdated (accepted a) d), w1)
    end.
Proof.
  intros Ha Hload Hxs.
  set (body := fun (orders : ref) (ys : list Order) =>
    (match scan_pending d ys (length ys) with
     | Some idx =>
         assign orders idx (set_status (verdict a)) ;;;
         saveOrders (now_save e) (write_ok e) orders
     | None => ret tt
     end) ;;;
    ret (ButtonsUpdated (accepted a) d)).
  assert (Hbody : on_button e a d w = try_catch (fun w0 => body r xs w1)
                                        (fun _ => ret ButtonFailed) w).
  { pose proof (with_collection (now_load e) w w1 r xs body Hload Hxs) as E.
    unfold on_button, try_catch. cbv beta. rewrite <- E.
    destruct a; try congruence; reflexivity. }
  rewrite Hbody. unfold try_catch, body. clear Hbody body.
  destruct (scan_pending d xs (length xs)) as [idx|] eqn:Hscan.
  - apply scan_pending_Some in Hscan as (Hlt & o & Ho & _); [|lia].
    unfold bind at 1. rewrite (assign_then_save w1 r xs idx o _ _ _ Hxs Ho).
    assert (Halt : alter (set_status (verdict a)) idx xs
                   = <[idx := set_status (verdict a) o]> xs).
    { apply alter_as_insert; auto. }
    rewrite Halt. destruct (write_ok e); reflexivity.
  - reflexivity.
Qed.

(** C7. The accept / decline handler walks the collection from its last
    element to its first and stops at the first order whose
    [clientDiscordId] is the submitter and whose [status] is ["Pending"]:
    no later order qualifies.  That order is the one changed: its [status]
    becomes ["Accepted"] on accept and ["Declined"] on decline, its other
    fields stay as they were, no other order changes, and the collection
    with the changed order is what the cache holds and, the write going
    through, what the file holds.  When no order qualifies the search ends
    with nothing found and nothing is changed. *)
Theorem accept_decline_picks_latest_pending
    (w w1 : world) (e : env) (a : action) (d : string) (r : ref) (xs : list Order) :
  a <> dm ->
  loadOrders (now_load e) w = (Ok r, w1) ->
  heap w1 !! r = Some xs ->
  match scan_pending d xs (length xs) with
  | Some idx =>
      exists o,
        xs !! idx = Some o /\
        clientDiscordId o = d /\ status o = "Pending" /\
        (forall j y, (idx < j)%nat -> xs !! j = Some y ->
                     ~ (clientDiscordId y = d /\ status y = "Pending")) /\
        let o' :=
          mkOrder (uuid o)
            (match a with accept => "Accepted" | _ => "Declined" end)
            (payment o) (discordUsername o) (clientDiscordId o) (serverName o)
            (serverInvite o) (serviceType o) (budget o) (paymentMethod o)
            (projectDetails o) (createdAt o) (paidAt o) (notes o) in
        snd (on_button e a d w) =
          stored w1 r (<[idx := o']> xs) (now_save e) (write_ok e) /\
        cached (snd (on_button e a d w)) = Some (<[idx := o']> xs) /\
        <[idx := o']> xs !! idx = Some o' /\
        status o' <> status o /\
        (forall j, j <> idx -> <[idx := o']> xs !! j = xs !! j) /\
        (write_ok e = true ->
         ordersFile (snd (on_button e a d w)) = Json (<[idx := o']> xs)) /\
        (write_ok e = false ->
         ordersFile (snd (on_button e a d w)) = ordersFile w)
  | None =>
      (forall y, y ∈ xs -> ~ (clientDiscordId y = d /\ status y = "Pending")) /\
      on_button e a d w = (Ok (ButtonsUpdated (accepted a) d), w1) /\
      cached (snd (on_button e a d w)) = Some xs /\
      ordersFile (snd (on_button e a d w)) = ordersFile w
  end.
Proof.
  intros Ha Hload Hxs. rewrite (on_button_eq w w1 e a d r xs Ha Hload Hxs).
  destruct (scan_pending d xs (length xs)) as [idx|] eqn:Hscan.
  - apply scan_pending_Some in Hscan as (Hlt & o & Ho & Hp & Hmax); [|lia].
    exists o. apply pending_of_spec in Hp as [Hd Hs].
    assert (Halt : alter (set_status (verdict a)) idx xs
                   = <[idx := set_status (verdict a) o]> xs).
    { apply alter_as_insert; auto. }
    rewrite Halt.
    assert (Hnew : set_status (verdict a) o
                   = mkOrder (uuid o)
                       (match a with accept => "Accepted" | _ => "Declined" end)
                       (payment o) (discordUsername o) (clientDiscordId o)
                       (serverName o) (serverInvite o) (serviceType o) (budget o)
                       (paymentMethod o) (projectDetails o) (createdAt o)
                       (paidAt o) (notes o)) by reflexivity.
    rewrite Hnew. clear Hnew Halt. cbv zeta.
    destruct (loadOrders_frame _ _ _ _ Hload) as (Hfile & _).
    split; [exact Ho|]. split; [exact Hd|]. split; [exact Hs|]. split.
    { intros j y Hj Hy. apply pending_of_false.
      apply (Hmax j y); [|exact Hy]. split; [lia|]. eapply lookup_lt_Some; eauto. }
    split; [reflexivity|]. split; [eapply lookup_stored; eauto|]. split.
    { apply list_lookup_insert_eq. eapply lookup_lt_Some; eauto. }
    split; [simpl; rewrite Hs; destruct a; discriminate|]. split.
    { intros j Hj. apply list_lookup_insert_ne. auto. }
    split; intros Hok; simpl; rewrite Hok; [reflexivity | exact Hfile].
  - destruct (loadOrders_frame _ _ _ _ Hload) as (Hfile & _).
    split; [|split; [reflexivity | split]].
    + intros y Hy. apply pending_of_false.
      apply list_elem_of_lookup in Hy as [j Hj].
      eapply (proj1 (scan_pending_None d xs (length xs) ltac:(lia)) Hscan j y); eauto.
      eapply lookup_lt_Some; eauto.
    + simpl. eapply cached_after_load; eauto.
    + simpl. exact Hfile.
Qed.

Lemma accept_decline_picks_latest_pending_witness :
  let who := "123456789012345678" in
  let old := sample "aaaa1111" who "Pending" in
  let done := sample "bbbb2222" who "Accepted" in
  let open := sample "cccc3333" who "Pending" in
  let other := sample "dddd4444" "999999999999999999" "Pending" in
  let w := boot (Json [old; done; open; other]) in
  let e := at_time 1000 true in
  accept <> dm /\
  scan_pending who [old; done; open; other] 4 = Some 2%nat /\
  cached (snd (on_button e accept who w))
    = Some [old; done; sample "cccc3333" who "Accepted"; other] /\
  ordersFile (snd (on_button e accept who w))
    = Json [old; done; sample "cccc3333" who "Accepted"; other].
Proof.
  intros who old done open other w e.
  assert (Ha : accept <> dm) by discriminate.
  assert (Hload : loadOrders (now_load e) w = (Ok 0%nat, snd (loadOrders 1000 w)))
    by reflexivity.
  assert (Hxs : heap (snd (loadOrders 1000 w)) !! 0%nat
                = Some [old; done; open; other]) by reflexivity.
  pose proof (accept_decline_picks_latest_pending w (snd (loadOrders 1000 w)) e
                accept who 0%nat [old; done; open; other] Ha Hload Hxs) as H.
  change (scan_pending who [old; done; open; other]
            (length [old; done; open; other])) with (Some 2%nat) in H.
  destruct H as (o & Ho & _ & _ & _ & _ & Hc & _ & _ & _ & Hfile & _).
  injection Ho as <-.
  split; [exact Ha|]. split; [reflexivity|]. split; [exact Hc|].
  exact (Hfile eq_refl).
Defined.

Lemma findLastIndex_None {A : Type} (p : A -> bool) (xs : list A) :
  findLastIndex p xs = None <-> forall x, x ∈ xs -> p x = false.
Proof.
  induction xs as [|a xs IH]; simpl.
  - split; [intros _ x Hx; inversion Hx | reflexivity].
  - destruct (findLastIndex p xs) as [i|].
    + split; [discriminate|]. intros H. exfalso.
      assert (Some i = None) by (apply IH; intros x Hx; apply H; right; auto).
      discriminate.
    + destruct (p a) eqn:Hp.
      * split; [discriminate|]. intros H. specialize (H a ltac:(left)). congruence.
      * split; [|reflexivity]. intros _ x Hx.
        apply elem_of_cons in Hx as [->|Hx]; [auto|]. apply (proj1 IH eq_refl); auto.
Qed.

Lemma scan_pending_app (d : string) (xs : list Order) (x : Order) (n : nat) :
  (n <= length xs)%nat ->
  scan_pending d (xs ++ [x]) n = scan_pending d xs n.
Proof.
  induction n as [|n IH]; intros Hn; simpl; [reflexivity|].
  rewrite lookup_app_l by lia. rewrite IH by lia. reflexivity.
Qed.

Lemma findLastIndex_snoc {A : Type} (p : A -> bool) (xs : list A) (x : A) :
  findLastIndex p (xs ++ [x]) = if p x then Some (length xs) else findLastIndex p xs.
Proof.
  induction xs as [|a xs IH]; simpl.
  - destruct (p x); reflexivity.
  - rewrite IH. destruct (p x); reflexivity.
Qed.

(** The loop of the bot and the [findLastIndex] of [backend_additions.js]
    find the same order. *)
Lemma scan_pending_findLastIndex (d : string) (xs : list Order) :
  scan_pending d xs (length xs) = findLastIndex (pending_of d) xs.
Proof.
  induction xs as [|x xs IH] using rev_ind; [reflexivity|].
  rewrite length_app, Nat.add_1_r. simpl scan_pending.
  rewrite lookup_app_r by lia. rewrite Nat.sub_diag. simpl.
  rewrite findLastIndex_snoc. destruct (pending_of d x); [reflexivity|].
  rewrite scan_pending_app by lia. exact IH.
Qed.

(** C10, as the code has it.  An accept or decline click for which no order
    has both the submitter's id and the status ["Pending"] completes with
    the usual acknowledgement and does exactly what a read does: the file
    is untouched, nothing is written, no array that existed is changed, and
    the cache is left as it was when it was fresh; when the cache was empty
    or had expired, it is reloaded from the file and stamped with the time
    of the click.  In [backend_additions.js], which has no cache, the file
    is untouched. *)
Theorem unmatched_click_only_reads
    (w w1 : world) (e : env) (a : action) (d : string) (r : ref) (xs : list Order) :
  a <> dm ->
  loadOrders (now_load e) w = (Ok r, w1) ->
  heap w1 !! r = Some xs ->
  (forall o, o ∈ xs -> ~ (clientDiscordId o = d /\ status o = "Pending")) ->
  on_button e a d w = (Ok (ButtonsUpdated (accepted a) d), w1) /\
  ordersFile w1 = ordersFile w /\
  fsWrites w1 = fsWrites w /\
  (exists extra, heap w1 = heap w ++ extra) /\
  (cache_fresh (now_load e) w = true -> w1 = w) /\
  (cache_fresh (now_load e) w = false ->
     cached w1 = Some (view (ordersFile w)) /\ lastOrdersLoad w1 = now_load e) /\
  (forall ok f,
     (forall o, o ∈ Additions.loadOrders f ->
                ~ (clientDiscordId o = d /\ status o = "Pending")) ->
     Additions.on_button ok a d f = (Ok (ButtonsUpdated (accepted a) d), f)).
Proof.
  intros Ha Hload Hxs Hnone.
  destruct (loadOrders_frame _ _ _ _ Hload) as (Hfile & Hwr & Hheap & Hfresh & Hstale).
  assert (Hscan : scan_pending d xs (length xs) = None).
  { apply scan_pending_None; [lia|]. intros j y _ Hy. apply pending_of_false.
    apply Hnone. apply list_elem_of_lookup. eauto. }
  rewrite (on_button_eq w w1 e a d r xs Ha Hload Hxs), Hscan.
  repeat split; auto; try (apply Hstale; auto).
  intros ok f Hf. unfold Additions.on_button.
  assert (Hlast : findLastIndex (pending_of d) (Additions.loadOrders f) = None).
  { apply findLastIndex_None. intros x Hx. apply pending_of_false. auto. }
  rewrite Hlast. destruct a; try congruence; reflexivity.
Qed.

Lemma unmatched_click_only_reads_witness :
  let o := sample "abc123" "111111111111111111" "Accepted" in
  let w := snd (loadOrders 1000 (boot (Json [o]))) in
  let e := at_time 2000 true in
  decline <> dm /\
  on_button e decline "111111111111111111" w
    = (Ok (ButtonsUpdated false "111111111111111111"), w) /\
  Additions.on_button true decline "111111111111111111" (Json [o])
    = (Ok (ButtonsUpdated false "111111111111111111"), Json [o]).
Proof.
  intros o w e.
  assert (Ha : decline <> dm) by discriminate.
  assert (Hload : loadOrders (now_load e) w = (Ok 0%nat, w)) by reflexivity.
  assert (Hxs : heap w !! 0%nat = Some [o]) by reflexivity.
  assert (Hnone : forall x, x ∈ [o] ->
            ~ (clientDiscordId x = "111111111111111111" /\ status x = "Pending")).
  { intros x Hx. apply list_elem_of_singleton in Hx as ->. intros [_ H]. discriminate. }
  destruct (unmatched_click_only_reads w w e decline "111111111111111111" 0%nat [o]
              Ha Hload Hxs Hnone) as (Hb & _ & _ & _ & _ & _ & Hadd).
  split; [exact Ha|]. split; [exact Hb|].
  apply Hadd. exact Hnone.
Defined.

(** C10, as stated, fails: the click can change the cache.
    - After a start, the cache is empty; a click that matches nothing loads
      the file into it and stamps it.
    - After a [!note] whose write was rejected, the cache holds the note and
      the file does not; forty seconds later a click that matches nothing
      reloads the file, and the cached collection loses the note. *)
Lemma unmatched_click_changes_cache :
  let o := sample "abc123" "111111111111111111" "Accepted" in
  let nobody := "222222222222222222" in
  let w := boot (Json [o]) in
  let w' := snd (on_button (at_time 1000 true) accept nobody w) in
  let v := run [(at_time 1000 false, Note "abc" "call back")] (boot (Json [o])) in
  let v' := snd (on_button (at_time 40000 true) decline nobody v) in
  (fst (on_button (at_time 1000 true) accept nobody w) = Ok (ButtonsUpdated true nobody) /\
   ordersCache w = None /\ lastOrdersLoad w = 0 /\
   ordersCache w' = Some 0%nat /\ lastOrdersLoad w' = 1000 /\
   cached w' = Some [o]) /\
  (fst (on_button (at_time 40000 true) decline nobody v) = Ok (ButtonsUpdated false nobody) /\
   cached v = Some [set_notes "call back" o] /\
   cached v' = Some [o] /\
   ordersFile v' = ordersFile v /\
   cached v' <> cached v).
Proof.
  vm_compute. repeat split; try reflexivity. discriminate.
Qed.

(** ** Creating an order *)

Lemma create_order_eq (w w1 : world) (e : env) (b : inquiry) (r : ref)
    (xs : list Order) :
  loadOrders (now_load e) w = (Ok r, w1) ->
  heap w1 !! r = Some xs ->
  create_order e b w =
    (if write_ok e then Ok (new_order e b) else Throw DiskError,
     stored w1 r (xs ++ [new_order e b]) (now_save e) (write_ok e)).
Proof.
  intros Hload Hxs. unfold create_order. cbv zeta.
  unfold bind at 1. rewrite Hload.
  apply (push_then_save w1 r xs (new_order e b) (now_save e) (write_ok e)
           (new_order e b) Hxs).
Qed.

Lemma post_inquiry_eq (w w1 : world) (e : env) (b : inquiry) (r : ref)
    (xs : list Order) :
  loadOrders (now_load e) w = (Ok r, w1) ->
  heap w1 !! r = Some xs ->
  post_inquiry e b w =
    if negb (all_present b) then (Ok MissingFields, w)
    else if negb (isValidSnowflake (q_clientDiscordId b)) then (Ok InvalidDiscordId, w)
    else if negb (channel_ok e) then (Ok ServerError, w)
    else
      (Ok (if write_ok e && send_ok e
           then Received (randomUUID e) (String.eqb (q_budget b) "Custom — DM me")
           else ServerError),
       stored w1 r (xs ++ [new_order e b]) (now_save e) (write_ok e)).
Proof.
  intros Hload Hxs. unfold post_inquiry, try_catch.
  destruct (negb (all_present b)); [reflexivity|].
  destruct (negb (isValidSnowflake (q_clientDiscordId b))); [reflexivity|].
  unfold getChannel. destruct (channel_ok e); simpl; [|reflexivity].
  unfold bind at 1. unfold ret at 1. unfold bind at 1.
  rewrite (create_order_eq w w1 e b r xs Hload Hxs).
  destruct (write_ok e); simpl; [|reflexivity].
  unfold bind, channel_send. destruct (send_ok e); reflexivity.
Qed.




(** ** Notes *)

Lemma findIndex_same_tests {A : Type} (p : A -> bool) (xs ys : list A) :
  p <$> xs = p <$> ys -> findIndex p xs = findIndex p ys.
Proof.
  revert ys. induction xs as [|x xs IH]; intros [|y ys] H; simpl in *;
    try discriminate; [reflexivity|].
  injection H as Hxy Hrest. rewrite Hxy, (IH ys Hrest). reflexivity.
Qed.

(** Changing an element in a way the test does not see leaves the index
    where it was. *)
Lemma findIndex_insert {A : Type} (p : A -> bool) (xs : list A) (i : nat) (x y : A) :
  xs !! i = Some x -> p y = p x ->
  findIndex p (<[i := y]> xs) = findIndex p xs.
Proof.
  intros Hx Hp. apply findIndex_same_tests.
  rewrite list_fmap_insert, Hp. apply list_insert_id.
  rewrite list_lookup_fmap, Hx. reflexivity.
Qed.

Lemma cmd_note_eq (w w1 : world) (e : env) (id note : string) (r : ref)
    (xs : list Order) :
  id <> "" -> note <> "" ->
  loadOrders (now_load e) w = (Ok r, w1) ->
  heap w1 !! r = Some xs ->
  cmd_note e id note w =
    match findIndex (has_prefix id) xs with
    | Some idx =>
        (if write_ok e
         then match xs !! idx with
              | Some o => Ok (NoteSaved (set_notes note o))
              | None => Throw TypeError
              end
         else Throw DiskError,
         stored w1 r (alter (set_notes note) idx xs) (now_save e) (write_ok e))
    | None => (Ok (NoOrderFound id), w1)
    end.
Proof.
  intros Hid Hnote Hload Hxs.
  pose proof (with_collection (now_load e) w w1 r xs
    (fun orders ys =>
       match findIndex (has_prefix id) ys with
       | Some idx =>
           assign orders idx (set_notes note) ;;;
           saveOrders (now_save e) (write_ok e) orders ;;;
           o <- element orders idx ;; ret (NoteSaved o)
       | None => ret (NoOrderFound id)
       end) Hload Hxs) as E. cbv beta in E.
  assert (Hc : cmd_note e id note w
               = match findIndex (has_prefix id) xs with
                 | Some idx =>
                     assign r idx (set_notes note) ;;;
                     saveOrders (now_save e) (write_ok e) r ;;;
                     o <- element r idx ;; ret (NoteSaved o)
                 | None => ret (NoOrderFound id)
                 end w1).
  { rewrite <- E. unfold cmd_note.
    rewrite (falsy_false id Hid), (falsy_false note Hnote). reflexivity. }
  rewrite Hc. clear Hc E.
  destruct (findIndex (has_prefix id) xs) as [idx|] eqn:Hidx; [|reflexivity].
  apply findIndex_Some in Hidx as (o & Ho & _).
  rewrite (update_then_save w1 r xs idx o (set_notes note) (now_save e) (write_ok e)
             NoteSaved Hxs Ho).
  rewrite Ho, (alter_as_insert _ _ _ _ Ho). destruct (write_ok e); reflexivity.
Qed.

(** C9, as the code has it.  Let a first [!note] find the order and be
    saved.  A second [!note] with the same arguments that reads what the
    first one stored (it comes while the cache is fresh, or the collection
    is within [MAX_ORDERS_MEMORY], so that a reload returns all of it) finds
    the same order at the same index and leaves the cached collection and
    the file exactly as the first call left them: same note, same orders,
    same length.  It still writes the file once more when its write goes
    through. *)
Theorem note_twice_same_as_once
    (w w1 : world) (e1 e2 : env) (id note : string) (r : ref)
    (xs : list Order) (idx : nat) :
  id <> "" -> note <> "" ->
  loadOrders (now_load e1) w = (Ok r, w1) ->
  heap w1 !! r = Some xs ->
  findIndex (has_prefix id) xs = Some idx ->
  write_ok e1 = true ->
  now_load e2 - now_save e1 < CACHE_TTL \/ Z.of_nat (length xs) <= MAX_ORDERS_MEMORY ->
  let once := snd (cmd_note e1 id note w) in
  let twice := snd (cmd_note e2 id note once) in
  exists o,
    xs !! idx = Some o /\
    fst (cmd_note e1 id note w) = Ok (NoteSaved (set_notes note o)) /\
    cached once = Some (<[idx := set_notes note o]> xs) /\
    ordersFile once = Json (<[idx := set_notes note o]> xs) /\
    fst (cmd_note e2 id note once)
      = (if write_ok e2 then Ok (NoteSaved (set_notes note o)) else Throw DiskError) /\
    cached twice = cached once /\
    ordersFile twice = ordersFile once /\
    length (<[idx := set_notes note o]> xs) = length xs /\
    fsWrites twice
      = fsWrites once ++ (if write_ok e2 then [<[idx := set_notes note o]> xs] else []).
Proof.
  intros Hid Hnote Hload Hxs Hidx Hok Hsame once twice.
  pose proof Hidx as Hidx'. apply findIndex_Some in Hidx' as (o & Ho & _).
  exists o. split; [exact Ho|].
  set (xs' := <[idx := set_notes note o]> xs).
  assert (Honce : cmd_note e1 id note w
                  = (Ok (NoteSaved (set_notes note o)),
                     stored w1 r xs' (now_save e1) true)).
  { rewrite (cmd_note_eq w w1 e1 id note r xs Hid Hnote Hload Hxs), Hidx, Hok, Ho.
    rewrite (alter_as_insert _ _ _ _ Ho). reflexivity. }
  assert (Hidx2 : findIndex (has_prefix id) xs' = Some idx).
  { unfold xs'. rewrite (findIndex_insert _ xs idx o); auto. }
  assert (Ho2 : xs' !! idx = Some (set_notes note o)).
  { unfold xs'. apply list_lookup_insert_eq. eapply lookup_lt_Some; eauto. }
  assert (Hfix : alter (set_notes note) idx xs' = xs').
  { rewrite (alter_as_insert _ _ _ _ Ho2). unfold xs'.
    rewrite list_insert_insert_eq. reflexivity. }
  assert (Hr : (r < length (heap w1))%nat) by (eapply lookup_lt_Some; eauto).
  subst twice once. rewrite Honce. simpl snd. simpl fst.
  split; [reflexivity|].
  destruct (lookup_stored w1 r xs xs' (now_save e1) true Hxs) as [Hh Hc].
  split; [exact Hc|]. split; [reflexivity|].
  set (s1 := stored w1 r xs' (now_save e1) true) in *.
  destruct (cache_fresh (now_load e2) s1) eqn:Hf.
  - assert (Hload2 : loadOrders (now_load e2) s1 = (Ok r, s1)).
    { apply loadOrders_hit; [reflexivity|]. simpl. apply Z.ltb_lt. exact Hf. }
    rewrite (cmd_note_eq s1 s1 e2 id note r xs' Hid Hnote Hload2 Hh), Hidx2, Ho2, Hfix.
    simpl snd. simpl fst.
    split; [destruct (write_ok e2); reflexivity|].
    destruct (lookup_stored s1 r xs' xs' (now_save e2) (write_ok e2) Hh) as [_ Hc2].
    rewrite Hc2, Hc. split; [reflexivity|].
    split; [destruct (write_ok e2); reflexivity|].
    split; [apply length_insert|].
    simpl. destruct (write_ok e2); [reflexivity | rewrite app_nil_r; reflexivity].
  - assert (Hcap : Z.of_nat (length xs) <= MAX_ORDERS_MEMORY).
    { destruct Hsame as [Ht|Hcap]; [|exact Hcap]. exfalso.
      unfold cache_fresh in Hf. simpl in Hf. apply Z.ltb_ge in Hf. lia. }
    assert (Hview : view (ordersFile s1) = xs').
    { simpl. unfold xs' at 1. rewrite length_insert.
      destruct (MAX_ORDERS_MEMORY <? Z.of_nat (length xs)) eqn:Hlt; [|reflexivity].
      apply Z.ltb_lt in Hlt. lia. }
    destruct (loadOrders_total (now_load e2) s1) as (r2 & s2 & Hload2).
    destruct (loadOrders_frame _ _ _ _ Hload2) as (Hfile2 & Hwr2 & _ & _ & Hstale).
    destruct (Hstale Hf) as (_ & _ & Hh2). rewrite Hview in Hh2.
    rewrite (cmd_note_eq s1 s2 e2 id note r2 xs' Hid Hnote Hload2 Hh2), Hidx2, Ho2, Hfix.
    simpl snd. simpl fst.
    split; [destruct (write_ok e2); reflexivity|].
    destruct (lookup_stored s2 r2 xs' xs' (now_save e2) (write_ok e2) Hh2) as [_ Hc2].
    rewrite Hc2, Hc. split; [reflexivity|].
    split; [simpl; rewrite Hfile2; destruct (write_ok e2); reflexivity|].
    split; [apply length_insert|].
    simpl. rewrite Hwr2.
    destruct (write_ok e2); [reflexivity | rewrite app_nil_r; reflexivity].
Qed.

Lemma note_twice_same_as_once_witness :
  let a := sample "abc123" "111111111111111111" "Pending" in
  let b := sample "abd456" "222222222222222222" "Accepted" in
  let w := boot (Json [a; b]) in
  let e1 := at_time 1000 true in
  let e2 := at_time 50000 true in
  let once := snd (cmd_note e1 "abd" "call back" w) in
  let twice := snd (cmd_note e2 "abd" "call back" once) in
  findIndex (has_prefix "abd") [a; b] = Some 1%nat /\
  Z.of_nat (length [a; b]) <= MAX_ORDERS_MEMORY /\
  cached once = Some [a; set_notes "call back" b] /\
  cached twice = cached once /\
  ordersFile twice = ordersFile once.
Proof.
  intros a b w e1 e2 once twice.
  assert (Hidx : findIndex (has_prefix "abd") [a; b] = Some 1%nat) by reflexivity.
  assert (Hcap : Z.of_nat (length [a; b]) <= MAX_ORDERS_MEMORY)
    by (vm_compute; discriminate).
  assert (Hload : loadOrders (now_load e1) w = (Ok 0%nat, snd (loadOrders 1000 w)))
    by reflexivity.
  assert (Hxs : heap (snd (loadOrders 1000 w)) !! 0%nat = Some [a; b]) by reflexivity.
  destruct (note_twice_same_as_once w (snd (loadOrders 1000 w)) e1 e2
              "abd" "call back" 0%nat [a; b] 1%nat
              ltac:(discriminate) ltac:(discriminate) Hload Hxs Hidx eq_refl
              (or_intror Hcap))
    as (o & Ho & _ & Hc1 & _ & _ & Hc2 & Hf2 & _).
  injection Ho as <-.
  split; [exact Hidx|]. split; [exact Hcap|]. split; [exact Hc1|].
  split; [exact Hc2 | exact Hf2].
Defined.

(** C9, as stated, fails.  The file holds 500 orders and one inquiry
    brings the collection to 501, in the cache and in the file.  A first
    [!note] on the second-oldest order, one second later, is saved with all
    501 orders.  The same [!note] forty seconds later finds the cache
    expired, reloads the last 500 orders, sets the same note and saves: the
    cache and the file now hold 500 orders, and the oldest order is gone
    from both. *)
Lemma note_twice_drops_an_order :
  let w := run [(at_time 1000 true, Inquiry submission)] (boot (Json (stock 500))) in
  let once := snd (cmd_note (at_time 2000 true) (numbered 1) "call back" w) in
  let twice := snd (cmd_note (at_time 42000 true) (numbered 1) "call back" once) in
  (uuid <$> (cached w ≫= head)) = Some (numbered 0) /\
  (exists o, fst (cmd_note (at_time 2000 true) (numbered 1) "call back" w)
             = Ok (NoteSaved o)) /\
  (exists o, fst (cmd_note (at_time 42000 true) (numbered 1) "call back" once)
             = Ok (NoteSaved o)) /\
  length <$> cached once = Some 501%nat /\
  length <$> on_disk once = Some 501%nat /\
  (uuid <$> (on_disk once ≫= head)) = Some (numbered 0) /\
  length <$> cached twice = Some 500%nat /\
  length <$> on_disk twice = Some 500%nat /\
  (uuid <$> (on_disk twice ≫= head)) = Some (numbered 1) /\
  (notes <$> (on_disk once ≫= (fun xs => xs !! 1%nat))) = Some "call back" /\
  (notes <$> (on_disk twice ≫= head)) = Some "call back".
Proof.
  vm_compute. repeat split; try reflexivity; eexists; reflexivity.
Qed.

(** ** Payment state and payment date *)

(** The shape shared by [!paid], [!unpaid], [!setstatus] and [!note]:
    find the index, assign, save, reply. *)
Lemma update_command_eq (w w1 : world) (e : env) (id : string) (r : ref)
    (xs : list Order) (f : Order -> Order) (k : Order -> reply) :
  loadOrders (now_load e) w = (Ok r, w1) ->
  heap w1 !! r = Some xs ->
  (orders <- loadOrders (now_load e) ;;
   ys <- deref orders ;;
   match findIndex (has_prefix id) ys with
   | None => ret (NoOrderFound id)
   | Some idx =>
       assign orders idx f ;;;
       saveOrders (now_save e) (write_ok e) orders ;;;
       o <- element orders idx ;; ret (k o)
   end) w =
  match findIndex (has_prefix id) xs with
  | Some idx =>
      match xs !! idx with
      | Some o =>
          (if write_ok e then Ok (k (f o)) else Throw DiskError,
           stored w1 r (<[idx := f o]> xs) (now_save e) (write_ok e))
      | None => (Throw TypeError, w1)
      end
  | None => (Ok (NoOrderFound id), w1)
  end.
Proof.
  intros Hload Hxs.
  rewrite (with_collection (now_load e) w w1 r xs
    (fun orders ys =>
       match findIndex (has_prefix id) ys with
       | None => ret (NoOrderFound id)
       | Some idx =>
           assign orders idx f ;;;
           saveOrders (now_save e) (write_ok e) orders ;;;
           o <- element orders idx ;; ret (k o)
       end) Hload Hxs).
  destruct (findIndex (has_prefix id) xs) as [idx|] eqn:Hidx; [|reflexivity].
  apply findIndex_Some in Hidx as (o & Ho & _). rewrite Ho.
  apply (update_then_save w1 r xs idx o f (now_save e) (write_ok e) k Hxs Ho).
Qed.

Lemma cmd_paid_eq (w w1 : world) (e : env) (paid : bool) (id : string) (r : ref)
    (xs : list Order) :
  id <> "" ->
  loadOrders (now_load e) w = (Ok r, w1) ->
  heap w1 !! r = Some xs ->
  cmd_paid e paid id w =
    match findIndex (has_prefix id) xs with
    | Some idx =>
        match xs !! idx with
        | Some o =>
            (if write_ok e then Ok (Marked paid (mark e paid o)) else Throw DiskError,
             stored w1 r (<[idx := mark e paid o]> xs) (now_save e) (write_ok e))
        | None => (Throw TypeError, w1)
        end
    | None => (Ok (NoOrderFound id), w1)
    end.
Proof.
  intros Hid Hload Hxs.
  pose proof (with_collection (now_load e) w w1 r xs
    (fun orders ys =>
       match findIndex (has_prefix id) ys with
       | None => ret (NoOrderFound id)
       | Some idx =>
           assign orders idx (set_payment (if paid then "✅ Paid" else "⏳ Unpaid")) ;;;
           assign orders idx (set_paidAt (if paid then Some (toISOString e) else None)) ;;;
           saveOrders (now_save e) (write_ok e) orders ;;;
           o <- element orders idx ;; ret (Marked paid o)
       end) Hload Hxs) as E. cbv beta in E.
  assert (Hc : cmd_paid e paid id w =
    match findIndex (has_prefix id) xs with
    | None => ret (NoOrderFound id)
    | Some idx =>
        assign r idx (set_payment (if paid then "✅ Paid" else "⏳ Unpaid")) ;;;
        assign r idx (set_paidAt (if paid then Some (toISOString e) else None)) ;;;
        saveOrders (now_save e) (write_ok e) r ;;;
        o <- element r idx ;; ret (Marked paid o)
    end w1).
  { rewrite <- E. unfold cmd_paid. rewrite (falsy_false id Hid). reflexivity. }
  rewrite Hc. clear Hc E.
  destruct (findIndex (has_prefix id) xs) as [idx|] eqn:Hidx; [|reflexivity].
  apply findIndex_Some in Hidx as (o & Ho & _). rewrite Ho.
  rewrite (assign_twice w1 r xs idx o _ _ _ Hxs Ho).
  apply (update_then_save w1 r xs idx o _ (now_save e) (write_ok e) (Marked paid) Hxs Ho).
Qed.

Lemma cmd_setstatus_eq (w w1 : world) (e : env) (id st : string) (r : ref)
    (xs : list Order) :
  id <> "" -> st <> "" ->
  loadOrders (now_load e) w = (Ok r, w1) ->
  heap w1 !! r = Some xs ->
  cmd_setstatus e id st w =
    match findIndex (has_prefix id) xs with
    | Some idx =>
        match xs !! idx with
        | Some o =>
            (if write_ok e then Ok (StatusSet (set_status st o)) else Throw DiskError,
             stored w1 r (<[idx := set_status st o]> xs) (now_save e) (write_ok e))
        | None => (Throw TypeError, w1)
        end
    | None => (Ok (NoOrderFound id), w1)
    end.
Proof.
  intros Hid Hst Hload Hxs.
  rewrite <- (update_command_eq w w1 e id r xs (set_status st) StatusSet Hload Hxs).
  unfold cmd_setstatus. rewrite (falsy_false id Hid), (falsy_false st Hst).
  reflexivity.
Qed.

Lemma cmd_reads_eq (w w1 : world) (e : env) (r : ref) (xs : list Order) :
  loadOrders (now_load e) w = (Ok r, w1) ->
  heap w1 !! r = Some xs ->
  (forall filter, snd (cmd_orders e filter w) = w1) /\
  (forall id, snd (cmd_order e id w) = if falsy id then w else w1).
Proof.
  intros Hload Hxs. split.
  - intros filter.
    pose proof (with_collection (now_load e) w w1 r xs
      (fun _ ys =>
         let filtered :=
           if falsy filter then ys
           else List.filter
                  (fun o => String.eqb (toLowerCase (status o)) (toLowerCase filter))
                  ys in
         match filtered with
         | [] => ret NoOrders
         | _ => ret (OrderList (slice (-10) filtered) (length filtered))
         end) Hload Hxs) as E.
    open_handler (cmd_orders e filter w) E. cbv zeta.
    destruct (if falsy filter then xs else _); reflexivity.
  - intros id. unfold cmd_order. destruct (falsy id); [reflexivity|].
    rewrite (with_collection (now_load e) w w1 r xs
      (fun _ ys =>
         match find (has_prefix id) ys with
         | None => ret (NoOrderFound id)
         | Some order => ret (OrderCard order)
         end) Hload Hxs).
    destruct (find (has_prefix id) xs); reflexivity.
Qed.

(** What a request does to the state: nothing, a load, a load followed by
    one update in place and a save, or a load followed by a push and a
    save. *)
Lemma step_cases (e : env) (q : request) (w w1 : world) (r : ref) (xs : list Order) :
  loadOrders (now_load e) w = (Ok r, w1) ->
  heap w1 !! r = Some xs ->
  step e q w = w \/
  step e q w = w1 \/
  (exists idx o f,
     xs !! idx = Some o /\ touches e q f /\
     step e q w = stored w1 r (<[idx := f o]> xs) (now_save e) (write_ok e)) \/
  (exists b,
     q = Inquiry b /\
     step e q w = stored w1 r (xs ++ [new_order e b]) (now_save e) (write_ok e)).
Proof.
  intros Hload Hxs.
  destruct (cmd_reads_eq w w1 e r xs Hload Hxs) as [Horders Horder].
  destruct q as [filter|id|paid id|id st|id note|a d|b]; simpl.
  - right; left. apply Horders.
  - rewrite Horder. destruct (falsy id); auto.
  - destruct id as [|c id]; [left; reflexivity|].
    assert (Hid : String c id <> "") by discriminate.
    rewrite (cmd_paid_eq w w1 e paid _ r xs Hid Hload Hxs).
    destruct (findIndex _ xs) as [idx|]; [|auto].
    destruct (xs !! idx) as [o|] eqn:Ho; [|auto].
    right; right; left. exists idx, o, (mark e paid).
    repeat split; auto. constructor.
  - destruct id as [|c id]; [left; reflexivity|].
    destruct st as [|c' st]; [left; reflexivity|].
    assert (Hid : String c id <> "") by discriminate.
    assert (Hst : String c' st <> "") by discriminate.
    rewrite (cmd_setstatus_eq w w1 e _ _ r xs Hid Hst Hload Hxs).
    destruct (findIndex _ xs) as [idx|]; [|auto].
    destruct (xs !! idx) as [o|] eqn:Ho; [|auto].
    right; right; left. exists idx, o, (set_status (String c' st)).
    repeat split; auto. constructor.
  - destruct id as [|c id]; [left; reflexivity|].
    destruct note as [|c' note]; [left; reflexivity|].
    assert (Hid : String c id <> "") by discriminate.
    assert (Hnote : String c' note <> "") by discriminate.
    rewrite (cmd_note_eq w w1 e _ _ r xs Hid Hnote Hload Hxs).
    destruct (findIndex _ xs) as [idx|] eqn:Hidx; [|auto].
    apply findIndex_Some in Hidx as (o & Ho & _).
    rewrite (alter_as_insert _ _ _ _ Ho).
    right; right; left. exists idx, o, (set_notes (String c' note)).
    repeat split; auto. constructor.
  - assert (Hdm : a = dm \/ a <> dm) by (destruct a; auto; right; discriminate).
    destruct Hdm as [->|Ha]; [left; reflexivity|].
    rewrite (on_button_eq w w1 e a d r xs Ha Hload Hxs).
    destruct (scan_pending d xs (length xs)) as [idx|] eqn:Hscan; [|auto].
    apply scan_pending_Some in Hscan as (_ & o & Ho & _); [|lia].
    rewrite (alter_as_insert _ _ _ _ Ho).
    right; right; left. exists idx, o, (set_status (verdict a)).
    repeat split; auto. constructor. exact Ha.
  - rewrite (post_inquiry_eq w w1 e b r xs Hload Hxs).
    destruct (negb (all_present b)); [auto|].
    destruct (negb (isValidSnowflake (q_clientDiscordId b))); [auto|].
    destruct (negb (channel_ok e)); [auto|].
    right; right; right. exists b. auto.
Qed.

Lemma new_order_unpaid (e : env) (b : inquiry) :
  payment (new_order e b) = "⏳ Unpaid" /\ paidAt (new_order e b) = None.
Proof. split; reflexivity. Qed.

Lemma mark_fields (e : env) (o : Order) :
  payment (mark e true o) = "✅ Paid" /\
  paidAt (mark e true o) = Some (toISOString e) /\
  payment (mark e false o) = "⏳ Unpaid" /\
  paidAt (mark e false o) = None.
Proof. repeat split; reflexivity. Qed.

Lemma payment_ok_new (e : env) (b : inquiry) : payment_ok (new_order e b).
Proof. unfold payment_ok. simpl. split; [congruence | discriminate]. Qed.

Lemma payment_ok_mark (e : env) (paid : bool) (o : Order) :
  payment_ok (mark e paid o).
Proof.
  unfold payment_ok. destruct paid; simpl.
  - split; [reflexivity | discriminate].
  - split; [congruence | discriminate].
Qed.

(** Apart from [!paid] and [!unpaid], no update reaches the two fields. *)
Lemma touches_keeps_payment (e : env) (q : request) (f : Order -> Order) (o : Order) :
  touches e q f ->
  (forall paid id, q <> Paid paid id) ->
  payment (f o) = payment o /\ paidAt (f o) = paidAt o.
Proof.
  intros Ht Hq. destruct Ht; try (split; reflexivity).
  exfalso. eapply Hq. reflexivity.
Qed.

Lemma touches_ok (e : env) (q : request) (f : Order -> Order) (o : Order) :
  touches e q f -> payment_ok o -> payment_ok (f o).
Proof.
  intros Ht Ho. destruct Ht; try exact Ho. apply payment_ok_mark.
Qed.

Lemma view_ok (f : disk) : file_ok f -> Forall payment_ok (view f).
Proof.
  destruct f as [| |xs]; simpl; try constructor. intros Hxs.
  destruct (MAX_ORDERS_MEMORY <? Z.of_nat (length xs)); [|exact Hxs].
  unfold slice. apply Forall_drop. exact Hxs.
Qed.

Lemma reload_arrays_ok (f : disk) :
  file_ok f -> Forall (Forall payment_ok) (reload_arrays f).
Proof.
  intros Hf. pose proof (view_ok f Hf) as Hv.
  destruct f as [| |xs]; simpl in *; repeat constructor.
  destruct (MAX_ORDERS_MEMORY <? Z.of_nat (length xs)); repeat constructor; auto.
Qed.

Lemma load_ok (now : Z) (w : world) :
  world_ok w ->
  exists r w1 xs,
    loadOrders now w = (Ok r, w1) /\ heap w1 !! r = Some xs /\
    Forall payment_ok xs /\ world_ok w1.
Proof.
  intros (Hwf & Hheap & Hfile).
  destruct (loadOrders_spec now w Hwf)
    as (r & w1 & Hload & Hxs & Hwf1 & Hfile1 & _ & Hfresh & _).
  exists r, w1, (collection now w). repeat split; auto.
  - destruct (cache_fresh now w) eqn:Hf.
    + rewrite (Hfresh eq_refl) in Hxs.
      eapply (proj1 (Forall_lookup _ _) Hheap); eauto.
    + unfold collection. rewrite Hf. apply view_ok. exact Hfile.
  - destruct (cache_fresh now w) eqn:Hf.
    + rewrite (Hfresh eq_refl). exact Hheap.
    + rewrite (loadOrders_miss now w Hf) in Hload. injection Hload as _ <-. simpl.
      apply Forall_app. split; [exact Hheap | apply reload_arrays_ok; exact Hfile].
  - rewrite Hfile1. exact Hfile.
Qed.

Lemma stored_ok (w1 : world) (r : ref) (xs xs' : list Order) (now : Z) (ok : bool) :
  world_ok w1 -> heap w1 !! r = Some xs -> Forall payment_ok xs' ->
  world_ok (stored w1 r xs' now ok).
Proof.
  intros (Hwf & Hheap & Hfile) Hxs Hxs'. unfold world_ok, wf, stored. simpl.
  repeat split.
  - rewrite list_lookup_insert_eq by (eapply lookup_lt_Some; eauto). eauto.
  - apply Forall_insert; auto.
  - destruct ok; simpl; auto.
Qed.

Lemma step_ok (e : env) (q : request) (w : world) :
  world_ok w -> world_ok (step e q w).
Proof.
  intros Hw. destruct (load_ok (now_load e) w Hw) as (r & w1 & xs & Hload & Hxs & Hok & Hw1).
  destruct (step_cases e q w w1 r xs Hload Hxs)
    as [-> | [-> | [(idx & o & f & Ho & Ht & ->) | (b & _ & ->)]]]; auto.
  - apply (stored_ok w1 r xs); auto. apply Forall_insert; auto.
    apply (touches_ok e q f o Ht). eapply (proj1 (Forall_lookup _ _) Hok); eauto.
  - apply (stored_ok w1 r xs); auto. apply Forall_app. split; auto.
    constructor; [apply payment_ok_new | constructor].
Qed.

Lemma run_ok (trace : list (env * request)) (w : world) :
  world_ok w -> world_ok (run trace w).
Proof.
  revert w. induction trace as [|[e q] rest IH]; intros w Hw; simpl; auto.
  apply IH. apply step_ok. exact Hw.
Qed.

(** C8. Start the process on a file in which [paidAt] is set exactly for
    the orders marked paid (or on no file at all), and serve any sequence of
    requests, with any outcome of the writes: in every order of the cache,
    of the file and of any later read, [paidAt] is non-null if and only if
    [payment] is the paid mark.  The new order of an inquiry is unpaid with
    [paidAt] null; [!paid] sets the paid mark and a date on the order it
    finds, [!unpaid] the unpaid mark and null; every other request leaves
    the two fields of every order as they were. *)
Theorem paid_date_iff_paid (f : disk) (trace : list (env * request)) :
  file_ok f ->
  (let w := run trace (boot f) in
   (forall xs, cached w = Some xs -> Forall payment_ok xs) /\
   (forall xs, ordersFile w = Json xs -> Forall payment_ok xs) /\
   (forall now xs, read now w = Some xs -> Forall payment_ok xs)) /\
  (forall e b,
     payment (new_order e b) = "⏳ Unpaid" /\ paidAt (new_order e b) = None) /\
  (forall e paid id w w1 r xs idx o,
     id <> "" ->
     loadOrders (now_load e) w = (Ok r, w1) ->
     heap w1 !! r = Some xs ->
     findIndex (has_prefix id) xs = Some idx ->
     xs !! idx = Some o ->
     cached (step e (Paid paid id) w) = Some (<[idx := mark e paid o]> xs) /\
     payment (mark e paid o) = (if paid then "✅ Paid" else "⏳ Unpaid") /\
     paidAt (mark e paid o) = (if paid then Some (toISOString e) else None)) /\
  (forall e q w w1 r xs,
     loadOrders (now_load e) w = (Ok r, w1) ->
     heap w1 !! r = Some xs ->
     (forall paid id, q <> Paid paid id) ->
     (forall b, q <> Inquiry b) ->
     step e q w = w \/
     exists xs', cached (step e q w) = Some xs' /\ ledger xs' = ledger xs).
Proof.
  intros Hf. split; [|split; [|split]].
  - assert (Hw : world_ok (run trace (boot f))).
    { apply run_ok. unfold world_ok, wf, boot. simpl. repeat split; auto. }
    cbv zeta. destruct Hw as (Hwf & Hheap & Hfile). repeat split.
    + intros xs Hc. unfold cached in Hc.
      destruct (ordersCache (run trace (boot f))) as [c|]; [|discriminate].
      eapply (proj1 (Forall_lookup _ _) Hheap); eauto.
    + intros xs Hx. unfold file_ok in Hfile. rewrite Hx in Hfile. exact Hfile.
    + intros now xs Hr. unfold read in Hr.
      destruct (load_ok now (run trace (boot f)) (conj Hwf (conj Hheap Hfile)))
        as (r & w1 & ys & Hload & Hys & Hok & _).
      rewrite Hload in Hr. congruence.
  - apply new_order_unpaid.
  - intros e paid id w w1 r xs idx o Hid Hload Hxs Hidx Ho. simpl.
    rewrite (cmd_paid_eq w w1 e paid id r xs Hid Hload Hxs), Hidx, Ho. simpl.
    split; [eapply lookup_stored; eauto|].
    destruct paid; split; reflexivity.
  - intros e q w w1 r xs Hload Hxs Hpaid Hinq.
    destruct (step_cases e q w w1 r xs Hload Hxs)
      as [-> | [-> | [(idx & o & g & Ho & Ht & ->) | (b & -> & _)]]].
    + left. reflexivity.
    + right. exists xs. split; [|reflexivity].
      eapply cached_after_load; eauto.
    + right. exists (<[idx := g o]> xs). split; [eapply lookup_stored; eauto|].
      unfold ledger. rewrite list_fmap_insert.
      destruct (touches_keeps_payment e q g o Ht Hpaid) as [-> ->].
      apply list_insert_id. rewrite list_lookup_fmap, Ho. reflexivity.
    + exfalso. eapply Hinq. reflexivity.
Qed.

Lemma paid_date_iff_paid_witness :
  let a := sample "abc123" "111111111111111111" "Accepted" in
  let trace :=
    [(at_time 1000 true, Inquiry submission);
     (at_time 2000 true, Paid true "7f3c");
     (at_time 3000 false, Note "abc" "call back");
     (at_time 40000 true, Paid true "abc");
     (at_time 41000 true, Paid false "7f3c")] in
  file_ok (Json [a]) /\
  (forall xs, cached (run trace (boot (Json [a]))) = Some xs ->
              Forall payment_ok xs) /\
  ledger <$> cached (run trace (boot (Json [a])))
    = Some [("✅ Paid", Some "2024-05-02T08:30:00.000Z"); ("⏳ Unpaid", None)].
Proof.
  intros a trace.
  assert (Hf : file_ok (Json [a])).
  { constructor; [|constructor]. unfold payment_ok. simpl.
    split; [congruence | discriminate]. }
  destruct (paid_date_iff_paid (Json [a]) trace Hf) as ((Hc & _) & _).
  split; [exact Hf|]. split; [exact Hc | reflexivity].
Defined.

(** * Further properties of the order store *)

(** ** What a second request finds *)

(** After a save that went through, the next load returns what was saved,
    from the cache while it is fresh and from the file afterwards, as long
    as the collection is within the cap. *)
Lemma load_after_store (w1 : world) (r : ref) (xs xs' : list Order)
    (t now : Z) :
  heap w1 !! r = Some xs ->
  now - t < CACHE_TTL \/ Z.of_nat (length xs') <= MAX_ORDERS_MEMORY ->
  exists r2 w2,
    loadOrders now (stored w1 r xs' t true) = (Ok r2, w2) /\
    heap w2 !! r2 = Some xs' /\
    ordersFile w2 = Json xs' /\
    fsWrites w2 = fsWrites w1 ++ [xs'].
Proof.
  intros Hxs Hsame.
  destruct (lookup_stored w1 r xs xs' t true Hxs) as [Hh Hc].
  set (s1 := stored w1 r xs' t true) in *.
  destruct (cache_fresh now s1) eqn:Hf.
  - exists r, s1. split; [|auto].
    apply loadOrders_hit; [reflexivity|]. simpl. apply Z.ltb_lt. exact Hf.
  - assert (Hcap : Z.of_nat (length xs') <= MAX_ORDERS_MEMORY).
    { destruct Hsame as [Ht|Hcap]; [|exact Hcap]. exfalso.
      unfold cache_fresh in Hf. simpl in Hf. apply Z.ltb_ge in Hf. lia. }
    assert (Hview : view (ordersFile s1) = xs').
    { simpl. destruct (MAX_ORDERS_MEMORY <? Z.of_nat (length xs')) eqn:Hlt;
        [|reflexivity]. apply Z.ltb_lt in Hlt. lia. }
    destruct (loadOrders_total now s1) as (r2 & s2 & Hload2).
    destruct (loadOrders_frame _ _ _ _ Hload2) as (Hfile2 & Hwr2 & _ & _ & Hstale).
    destruct (Hstale Hf) as (_ & _ & Hh2). rewrite Hview in Hh2.
    exists r2, s2. repeat split; auto.
Qed.

(** ** Clicking twice *)

Lemma verdict_not_pending (d : string) (a : action) (o : Order) :
  pending_of d (set_status (verdict a) o) = false.
Proof.
  unfold pending_of. simpl. destruct a; simpl; apply andb_false_r.
Qed.

Lemma scan_pending_below (d : string) (xs : list Order) (idx n : nat) (y : Order) :
  (n <= idx)%nat ->
  scan_pending d (<[idx := y]> xs) n = scan_pending d xs n.
Proof.
  induction n as [|n IH]; intros Hn; simpl; [reflexivity|].
  rewrite list_lookup_insert_ne by lia. rewrite IH by lia. reflexivity.
Qed.

Lemma scan_pending_skips_decided (d : string) (xs : list Order) (idx n : nat)
    (o : Order) (a : action) :
  xs !! idx = Some o ->
  (idx < n <= length xs)%nat ->
  (forall j y, (idx < j < n)%nat -> xs !! j = Some y -> pending_of d y = false) ->
  scan_pending d (<[idx := set_status (verdict a) o]> xs) n = scan_pending d xs idx.
Proof.
  intros Ho. induction n as [|n IH]; intros Hn Hnone; [lia|]. simpl.
  destruct (decide (n = idx)) as [->|Hne].
  - rewrite list_lookup_insert_eq by lia. rewrite verdict_not_pending.
    apply scan_pending_below. lia.
  - rewrite list_lookup_insert_ne by auto.
    destruct (lookup_lt_is_Some_2 xs n ltac:(lia)) as [y Hy]. rewrite Hy.
    rewrite (Hnone n y ltac:(lia) Hy). apply IH; [lia|].
    intros j z Hj Hz. apply (Hnone j z); [lia | exact Hz].
Qed.

(** A second click on the buttons of the same submitter, after a first one
    that was saved, and coming while the cache left by the first is still
    fresh or with at most 500 orders in the collection, leaves the order
    just decided as it is: it decides the most recent pending order among
    the older ones, and nothing when there is none.  (With more than 500
    orders and a stale cache the second click works on a reloaded, shorter
    collection.) *)
Theorem second_click_moves_to_older_order
    (w w1 : world) (e1 e2 : env) (a1 a2 : action) (d : string) (r : ref)
    (xs : list Order) (idx : nat) :
  a1 <> dm -> a2 <> dm ->
  loadOrders (now_load e1) w = (Ok r, w1) ->
  heap w1 !! r = Some xs ->
  scan_pending d xs (length xs) = Some idx ->
  write_ok e1 = true ->
  now_load e2 - now_save e1 < CACHE_TTL \/ Z.of_nat (length xs) <= MAX_ORDERS_MEMORY ->
  let once := snd (on_button e1 a1 d w) in
  let xs1 := alter (set_status (verdict a1)) idx xs in
  cached once = Some xs1 /\
  cached (snd (on_button e2 a2 d once))
    = Some (match scan_pending d xs idx with
            | Some j => alter (set_status (verdict a2)) j xs1
            | None => xs1
            end) /\
  (forall j, scan_pending d xs idx = Some j -> (j < idx)%nat) /\
  (match scan_pending d xs idx with
   | Some j => alter (set_status (verdict a2)) j xs1
   | None => xs1
   end) !! idx = set_status (verdict a1) <$> xs !! idx.
Proof.
  intros Ha1 Ha2 Hload Hxs Hscan Hok Hsame once xs1.
  pose proof Hscan as Hscan'.
  apply scan_pending_Some in Hscan' as (Hlt & o & Ho & Hp & Hmax); [|lia].
  assert (Hxs1 : xs1 = <[idx := set_status (verdict a1) o]> xs)
    by (apply alter_as_insert; exact Ho).
  assert (Honce : once = stored w1 r xs1 (now_save e1) true).
  { unfold once. rewrite (on_button_eq w w1 e1 a1 d r xs Ha1 Hload Hxs), Hscan, Hok.
    reflexivity. }
  assert (Hbelow : forall j, scan_pending d xs idx = Some j -> (j < idx)%nat).
  { intros j Hj. apply scan_pending_Some in Hj as (Hj & _); [exact Hj | lia]. }
  split; [rewrite Honce; eapply lookup_stored; eauto|].
  assert (Hlen : length xs1 = length xs) by (rewrite Hxs1; apply length_insert).
  assert (Hscan1 : scan_pending d xs1 (length xs1) = scan_pending d xs idx).
  { rewrite Hlen, Hxs1. apply (scan_pending_skips_decided d xs idx (length xs) o a1 Ho).
    - lia.
    - intros j y Hj Hy. apply (Hmax j y); [lia | exact Hy]. }
  assert (Hsame1 : now_load e2 - now_save e1 < CACHE_TTL
                   \/ Z.of_nat (length xs1) <= MAX_ORDERS_MEMORY)
    by (rewrite Hlen; exact Hsame).
  destruct (load_after_store w1 r xs xs1 (now_save e1) (now_load e2) Hxs Hsame1)
    as (r2 & w2 & Hload2 & Hh2 & _).
  split; [|split; [exact Hbelow|]].
  - rewrite Honce, (on_button_eq _ w2 e2 a2 d r2 xs1 Ha2 Hload2 Hh2), Hscan1.
    destruct (scan_pending d xs idx) as [j|]; simpl.
    + eapply lookup_stored; eauto.
    + eapply cached_after_load; eauto.
  - destruct (scan_pending d xs idx) as [j|] eqn:Hj.
    + rewrite list_lookup_alter_ne by (specialize (Hbelow j eq_refl); lia).
      unfold xs1. apply list_lookup_alter_eq.
    + unfold xs1. apply list_lookup_alter_eq.
Qed.

Lemma second_click_moves_to_older_order_witness :
  let who := "123456789012345678" in
  let old := sample "aaaa1111" who "Pending" in
  let new := sample "cccc3333" who "Pending" in
  let w := boot (Json [old; new]) in
  let once := snd (on_button (at_time 1000 true) accept who w) in
  scan_pending who [old; new] (length [old; new]) = Some 1%nat /\
  cached once = Some [old; set_status "Accepted" new] /\
  cached (snd (on_button (at_time 2000 true) decline who once))
    = Some [set_status "Declined" old; set_status "Accepted" new].
Proof.
  intros who old new w once.
  assert (Hscan : scan_pending who [old; new] (length [old; new]) = Some 1%nat)
    by reflexivity.
  assert (Hload : loadOrders (now_load (at_time 1000 true)) w
                  = (Ok 0%nat, snd (loadOrders 1000 w))) by reflexivity.
  assert (Hxs : heap (snd (loadOrders 1000 w)) !! 0%nat = Some [old; new])
    by reflexivity.
  assert (Hsame : now_load (at_time 2000 true) - now_save (at_time 1000 true)
                  < CACHE_TTL \/ Z.of_nat (length [old; new]) <= MAX_ORDERS_MEMORY)
    by (left; reflexivity).
  destruct (second_click_moves_to_older_order w (snd (loadOrders 1000 w))
              (at_time 1000 true) (at_time 2000 true) accept decline who 0%nat
              [old; new] 1%nat ltac:(discriminate) ltac:(discriminate)
              Hload Hxs Hscan eq_refl Hsame) as (H1 & H2 & _).
  split; [exact Hscan|]. split; [exact H1 | exact H2].
Defined.

(** ** Marking paid, then unpaid *)

Lemma mark_unpaid_after_paid (e1 e2 : env) (o : Order) :
  mark e2 false (mark e1 true o) = mark e2 false o.
Proof. reflexivity. Qed.

Lemma mark_unpaid_on_unpaid (e : env) (o : Order) :
  payment o = "⏳ Unpaid" -> paidAt o = None -> mark e false o = o.
Proof. destruct o; simpl. intros -> ->. reflexivity. Qed.

(** [!paid] followed by [!unpaid] on the same identifier, both saved, the
    second coming while the cache left by the first is still fresh or with
    at most 500 orders in the collection, leaves the order unpaid with no
    payment date and everything else as it was: an order that was unpaid
    before is back to what it was, in the cache and in the file.  (With
    more than 500 orders and a stale cache the second command works on a
    reloaded, shorter collection.) *)
Theorem paid_then_unpaid_restores
    (w w1 : world) (e1 e2 : env) (id : string) (r : ref) (xs : list Order)
    (idx : nat) (o : Order) :
  id <> "" ->
  loadOrders (now_load e1) w = (Ok r, w1) ->
  heap w1 !! r = Some xs ->
  findIndex (has_prefix id) xs = Some idx ->
  xs !! idx = Some o ->
  write_ok e1 = true -> write_ok e2 = true ->
  now_load e2 - now_save e1 < CACHE_TTL \/ Z.of_nat (length xs) <= MAX_ORDERS_MEMORY ->
  let once := snd (cmd_paid e1 true id w) in
  let twice := snd (cmd_paid e2 false id once) in
  cached once = Some (<[idx := mark e1 true o]> xs) /\
  cached twice = Some (<[idx := mark e2 false o]> xs) /\
  ordersFile twice = Json (<[idx := mark e2 false o]> xs) /\
  (payment o = "⏳ Unpaid" -> paidAt o = None ->
   cached twice = Some xs /\ ordersFile twice = Json xs).
Proof.
  intros Hid Hload Hxs Hidx Ho Hok1 Hok2 Hsame once twice.
  set (xs1 := <[idx := mark e1 true o]> xs).
  assert (Honce : once = stored w1 r xs1 (now_save e1) true).
  { unfold once. rewrite (cmd_paid_eq w w1 e1 true id r xs Hid Hload Hxs), Hidx, Ho, Hok1.
    reflexivity. }
  assert (Hi : (idx < length xs)%nat) by (eapply lookup_lt_Some; eauto).
  assert (Hlen : length xs1 = length xs) by apply length_insert.
  assert (Hidx1 : findIndex (has_prefix id) xs1 = Some idx).
  { unfold xs1. rewrite (findIndex_insert _ xs idx o); auto. }
  assert (Ho1 : xs1 !! idx = Some (mark e1 true o))
    by (apply list_lookup_insert_eq; exact Hi).
  assert (Hsame1 : now_load e2 - now_save e1 < CACHE_TTL
                   \/ Z.of_nat (length xs1) <= MAX_ORDERS_MEMORY)
    by (rewrite Hlen; exact Hsame).
  destruct (load_after_store w1 r xs xs1 (now_save e1) (now_load e2) Hxs Hsame1)
    as (r2 & w2 & Hload2 & Hh2 & _).
  assert (Htwice : twice = stored w2 r2 (<[idx := mark e2 false o]> xs) (now_save e2) true).
  { unfold twice. rewrite Honce.
    rewrite (cmd_paid_eq _ w2 e2 false id r2 xs1 Hid Hload2 Hh2), Hidx1, Ho1, Hok2.
    simpl. unfold xs1. rewrite list_insert_insert_eq, mark_unpaid_after_paid.
    reflexivity. }
  split; [rewrite Honce; eapply lookup_stored; eauto|].
  split; [rewrite Htwice; eapply lookup_stored; eauto|].
  split; [rewrite Htwice; reflexivity|].
  intros Hp Hd. rewrite (mark_unpaid_on_unpaid e2 o Hp Hd) in Htwice.
  rewrite (list_insert_id xs idx o Ho) in Htwice.
  split; [rewrite Htwice; eapply lookup_stored; eauto | rewrite Htwice; reflexivity].
Qed.

Lemma paid_then_unpaid_restores_witness :
  let a := sample "abc123" "111111111111111111" "Accepted" in
  let b := sample "abd456" "222222222222222222" "Pending" in
  let w := boot (Json [a; b]) in
  let once := snd (cmd_paid (at_time 1000 true) true "abd" w) in
  let twice := snd (cmd_paid (at_time 50000 true) false "abd" once) in
  findIndex (has_prefix "abd") [a; b] = Some 1%nat /\
  cached once = Some [a; mark (at_time 1000 true) true b] /\
  cached twice = Some [a; b] /\
  ordersFile twice = Json [a; b].
Proof.
  intros a b w once twice.
  assert (Hidx : findIndex (has_prefix "abd") [a; b] = Some 1%nat) by reflexivity.
  assert (Hload : loadOrders (now_load (at_time 1000 true)) w
                  = (Ok 0%nat, snd (loadOrders 1000 w))) by reflexivity.
  assert (Hxs : heap (snd (loadOrders 1000 w)) !! 0%nat = Some [a; b]) by reflexivity.
  assert (Hcap : Z.of_nat (length [a; b]) <= MAX_ORDERS_MEMORY)
    by (vm_compute; discriminate).
  destruct (paid_then_unpaid_restores w (snd (loadOrders 1000 w))
              (at_time 1000 true) (at_time 50000 true) "abd" 0%nat [a; b] 1%nat b
              ltac:(discriminate) Hload Hxs Hidx eq_refl eq_refl eq_refl
              (or_intror Hcap)) as (H1 & _ & _ & H4).
  destruct (H4 eq_refl eq_refl) as [Hc Hf].
  split; [exact Hidx|]. split; [exact H1|]. split; [exact Hc | exact Hf].
Defined.

(** ** States a run can reach *)

Lemma boot_wf (f : disk) : wf (boot f).
Proof. exact I. Qed.

Lemma stored_wf (w1 : world) (r : ref) (xs xs' : list Order) (now : Z) (ok : bool) :
  heap w1 !! r = Some xs -> wf (stored w1 r xs' now ok).
Proof.
  intros Hxs. unfold wf, stored. simpl.
  rewrite list_lookup_insert_eq by (eapply lookup_lt_Some; eauto). eauto.
Qed.

Lemma step_wf (e : env) (q : request) (w : world) : wf w -> wf (step e q w).
Proof.
  intros Hwf.
  destruct (loadOrders_spec (now_load e) w Hwf) as (r & w1 & Hload & Hxs & Hwf1 & _).
  destruct (step_cases e q w w1 r _ Hload Hxs)
    as [-> | [-> | [(idx & o & f & _ & _ & ->) | (b & _ & ->)]]]; auto;
    eapply stored_wf; eauto.
Qed.

Lemma run_wf (trace : list (env * request)) (w : world) : wf w -> wf (run trace w).
Proof.
  revert w. induction trace as [|[e q] rest IH]; intros w Hw; simpl; auto.
  apply IH. apply step_wf. exact Hw.
Qed.

Lemma step_coherent (e : env) (q : request) (w : world) :
  wf w -> write_ok e = true -> coherent w -> coherent (step e q w).
Proof.
  intros Hwf Hok Hco.
  destruct (loadOrders_spec (now_load e) w Hwf) as (r & w1 & Hload & Hxs & _).
  destruct (loadOrders_frame _ _ _ _ Hload) as (Hfile & _ & _ & Hfresh & Hstale).
  assert (Hco1 : coherent w1).
  { destruct (cache_fresh (now_load e) w) eqn:Hf.
    - rewrite (Hfresh eq_refl). exact Hco.
    - destruct (Hstale eq_refl) as (_ & Hc & _).
      right; right. rewrite Hc, Hfile. reflexivity. }
  destruct (step_cases e q w w1 r _ Hload Hxs)
    as [-> | [-> | [(idx & o & f & _ & _ & ->) | (b & _ & ->)]]]; auto.
  - right; left. rewrite Hok.
    destruct (lookup_stored w1 r _ (<[idx := f o]> (collection (now_load e) w))
                (now_save e) true Hxs) as [_ ->]. reflexivity.
  - right; left. rewrite Hok.
    destruct (lookup_stored w1 r _ (collection (now_load e) w ++ [new_order e b])
                (now_save e) true Hxs) as [_ ->]. reflexivity.
Qed.

(** Requests being served one at a time, each handler finishing before
    the next one starts, and every write going through, the cache never
    shows anything but the orders of the file: when it holds a collection,
    that collection is what the file holds, or the last 500 orders of it
    right after a reload.  Handlers that overlap at an [await] are not
    covered. *)
Theorem cache_agrees_with_file (f : disk) (trace : list (env * request))
    (xs : list Order) :
  writes_succeed trace ->
  cached (run trace (boot f)) = Some xs ->
  ordersFile (run trace (boot f)) = Json xs \/
  xs = view (ordersFile (run trace (boot f))).
Proof.
  intros Hok Hc.
  assert (Hinv : forall w, wf w -> coherent w -> wf (run trace w) /\ coherent (run trace w)).
  { clear Hc. induction Hok as [|[e q] rest He _ IH]; intros w Hwf Hco; simpl; auto.
    apply IH; [apply step_wf; exact Hwf | apply step_coherent; auto]. }
  destruct (Hinv (boot f) (boot_wf f) (or_introl eq_refl)) as [_ [H|[H|H]]].
  - congruence.
  - left. rewrite Hc in H. unfold on_disk in H.
    destruct (ordersFile (run trace (boot f))); try discriminate. congruence.
  - right. congruence.
Qed.

Lemma cache_agrees_with_file_witness :
  let a := sample "abc123" "111111111111111111" "Pending" in
  let trace :=
    [(at_time 1000 true, Inquiry submission);
     (at_time 2000 true, Note "abc" "call back");
     (at_time 40000 true, Button accept "111111111111111111")] in
  writes_succeed trace /\
  (exists xs, cached (run trace (boot (Json [a]))) = Some xs /\
              ordersFile (run trace (boot (Json [a]))) = Json xs).
Proof.
  intros a trace.
  assert (Hok : writes_succeed trace) by (repeat constructor).
  split; [exact Hok|].
  eexists. split; [reflexivity|].
  destruct (cache_agrees_with_file (Json [a]) trace _ Hok eq_refl) as [H|H].
  - exact H.
  - reflexivity.
Defined.

(** ** What a command leaves alone *)

Lemma touches_frame (e : env) (q : request) (f : Order -> Order) (o : Order) :
  touches e q f ->
  identity (f o) = identity o /\
  ((forall id st, q <> SetStatus id st) -> (forall a d, q <> Button a d) ->
   status (f o) = status o) /\
  ((forall id note, q <> Note id note) -> notes (f o) = notes o).
Proof.
  intros Ht. destruct Ht; repeat split; try reflexivity; intros; exfalso;
    match goal with
    | H : forall _ _, _ <> _ |- _ => solve [eapply H; reflexivity]
    end.
Qed.

Lemma fmap_insert_same {A B : Type} (g : A -> B) (xs : list A) (i : nat) (x y : A) :
  xs !! i = Some x -> g y = g x -> g <$> <[i := y]> xs = g <$> xs.
Proof.
  intros Hx Hg. rewrite list_fmap_insert, Hg. apply list_insert_id.
  rewrite list_lookup_fmap, Hx. reflexivity.
Qed.

(** Whatever the request, the orders of the collection it read stay where
    they are and keep their identifier, their creation date and everything
    the client submitted.  An inquiry adds one order after them.  The status
    of an order changes only through [!setstatus] and the buttons, its notes
    only through [!note]. *)
Theorem requests_keep_the_orders
    (e : env) (q : request) (w w1 : world) (r : ref) (xs : list Order) :
  loadOrders (now_load e) w = (Ok r, w1) ->
  heap w1 !! r = Some xs ->
  step e q w = w \/
  exists xs',
    cached (step e q w) = Some xs' /\
    ((exists b, q = Inquiry b /\ xs' = xs ++ [new_order e b]) \/
     (length xs' = length xs /\
      identity <$> xs' = identity <$> xs /\
      ((forall id st, q <> SetStatus id st) -> (forall a d, q <> Button a d) ->
       status <$> xs' = status <$> xs) /\
      ((forall id note, q <> Note id note) -> notes <$> xs' = notes <$> xs))).
Proof.
  intros Hload Hxs.
  destruct (step_cases e q w w1 r xs Hload Hxs)
    as [-> | [-> | [(idx & o & f & Ho & Ht & ->) | (b & -> & ->)]]].
  - left. reflexivity.
  - right. exists xs. split; [eapply cached_after_load; eauto|]. right. auto.
  - right. exists (<[idx := f o]> xs). split; [eapply lookup_stored; eauto|].
    right. destruct (touches_frame e q f o Ht) as (Hid & Hst & Hno).
    split; [apply length_insert|]. split; [apply (fmap_insert_same _ _ _ o); auto|].
    split.
    + intros H1 H2. apply (fmap_insert_same _ _ _ o); auto.
    + intros H1. apply (fmap_insert_same _ _ _ o); auto.
  - right. exists (xs ++ [new_order e b]). split; [eapply lookup_stored; eauto|].
    left. eauto.
Qed.

Lemma requests_keep_the_orders_witness :
  let a := sample "abc123" "111111111111111111" "Pending" in
  let b := sample "abd456" "222222222222222222" "Pending" in
  let w := boot (Json [a; b]) in
  let e := at_time 1000 true in
  cached (step e (Note "abd" "call back") w) = Some [a; set_notes "call back" b] /\
  identity <$> [a; set_notes "call back" b] = identity <$> [a; b] /\
  status <$> [a; set_notes "call back" b] = status <$> [a; b].
Proof.
  intros a b w e.
  assert (Hload : loadOrders (now_load e) w = (Ok 0%nat, snd (loadOrders 1000 w)))
    by reflexivity.
  assert (Hxs : heap (snd (loadOrders 1000 w)) !! 0%nat = Some [a; b]) by reflexivity.
  destruct (requests_keep_the_orders e (Note "abd" "call back") w
              (snd (loadOrders 1000 w)) 0%nat [a; b] Hload Hxs)
    as [H | (xs' & Hc & [(b0 & Hb & _) | (_ & Hid & Hst & _)])].
  - discriminate H.
  - discriminate Hb.
  - assert (Hxs' : Some xs' = Some [a; set_notes "call back" b])
      by (rewrite <- Hc; reflexivity).
    injection Hxs' as ->. split; [exact Hc|]. split; [exact Hid|].
    apply Hst; discriminate.
Defined.

(** ** What an answer promises *)

(** The inquiry route changes the state only for a valid submission with
    the channel at hand.  When it answers that the inquiry was received,
    the order with the identifier it returns is the last one of the file,
    after all the orders the route had read. *)
Theorem inquiry_answer_and_store (w w' : world) (e : env) (b : inquiry)
    (resp : response) :
  wf w ->
  post_inquiry e b w = (Ok resp, w') ->
  (w' <> w -> valid b = true /\ channel_ok e = true) /\
  (forall orderId custom,
     resp = Received orderId custom ->
     orderId = randomUUID e /\
     custom = String.eqb (q_budget b) "Custom — DM me" /\
     write_ok e = true /\
     exists xs,
       read (now_load e) w = Some xs /\
       ordersFile w' = Json (xs ++ [new_order e b]) /\
       cached w' = Some (xs ++ [new_order e b])) /\
  (resp = MissingFields \/ resp = InvalidDiscordId -> w' = w).
Proof.
  intros Hwf Hpost.
  destruct (loadOrders_spec (now_load e) w Hwf) as (r & w1 & Hload & Hxs & _).
  set (xs := collection (now_load e) w) in *.
  assert (Hread : read (now_load e) w = Some xs) by (unfold read; rewrite Hload; exact Hxs).
  rewrite (post_inquiry_eq w w1 e b r xs Hload Hxs) in Hpost. unfold valid.
  destruct (all_present b); simpl in Hpost.
  2: { injection Hpost as <- <-. repeat split; try congruence; intros; discriminate. }
  destruct (isValidSnowflake (q_clientDiscordId b)); simpl in Hpost.
  2: { injection Hpost as <- <-. repeat split; try congruence; intros; discriminate. }
  destruct (channel_ok e); simpl in Hpost.
  2: { injection Hpost as <- <-. repeat split; try congruence;
       intros; try discriminate. }
  injection Hpost as <- <-. split; [auto|]. split.
  - intros orderId custom Hr.
    destruct (write_ok e) eqn:Hok; simpl in Hr; [|discriminate].
    destruct (send_ok e); simpl in Hr; [|discriminate].
    injection Hr as <- <-. repeat split; auto.
    exists xs. split; [exact Hread|]. split; [reflexivity|].
    eapply lookup_stored; eauto.
  - intros [Hr|Hr]; destruct (write_ok e && send_ok e); discriminate.
Qed.

Lemma inquiry_answer_and_store_witness :
  let a := sample "abc123" "111111111111111111" "Pending" in
  let w := boot (Json [a]) in
  let e := at_time 1000 true in
  wf w /\
  ordersFile (snd (post_inquiry e submission w)) = Json [a; new_order e submission].
Proof.
  intros a w e.
  destruct (inquiry_answer_and_store w (snd (post_inquiry e submission w)) e submission
              (Received (randomUUID e) false) (boot_wf _) eq_refl)
    as (_ & H & _).
  destruct (H _ _ eq_refl) as (_ & _ & _ & xs & Hr & Hf & _).
  assert (Hxs : Some xs = Some [a]) by (rewrite <- Hr; reflexivity).
  injection Hxs as ->. split; [exact I | exact Hf].
Defined.

(** When an owner command answers that the order was updated, the change
    is in the file: the file and the cache hold the same collection, and the
    order of the answer, carrying the new value, is in it. *)
Theorem acknowledged_update_is_on_disk (w : world) (e : env) (id : string) :
  wf w ->
  (forall note o w',
     cmd_note e id note w = (Ok (NoteSaved o), w') ->
     notes o = note /\ has_prefix id o = true /\
     exists xs', ordersFile w' = Json xs' /\ cached w' = Some xs' /\ o ∈ xs') /\
  (forall st o w',
     cmd_setstatus e id st w = (Ok (StatusSet o), w') ->
     status o = st /\ has_prefix id o = true /\
     exists xs', ordersFile w' = Json xs' /\ cached w' = Some xs' /\ o ∈ xs') /\
  (forall paid o w',
     cmd_paid e paid id w = (Ok (Marked paid o), w') ->
     payment o = (if paid then "✅ Paid" else "⏳ Unpaid") /\
     paidAt o = (if paid then Some (toISOString e) else None) /\
     has_prefix id o = true /\
     exists xs', ordersFile w' = Json xs' /\ cached w' = Some xs' /\ o ∈ xs').
Proof.
  intros Hwf.
  destruct (loadOrders_spec (now_load e) w Hwf) as (r & w1 & Hload & Hxs & _).
  set (xs := collection (now_load e) w) in *.
  assert (Hsaved : forall idx o0 (f : Order -> Order),
            xs !! idx = Some o0 ->
            let w' := stored w1 r (<[idx := f o0]> xs) (now_save e) true in
            exists xs', ordersFile w' = Json xs' /\ cached w' = Some xs' /\ f o0 ∈ xs').
  { intros idx o0 f Ho0 w'. exists (<[idx := f o0]> xs).
    split; [reflexivity|]. split; [eapply lookup_stored; eauto|].
    apply list_elem_of_lookup. exists idx. apply list_lookup_insert_eq.
    eapply lookup_lt_Some; eauto. }
  destruct id as [|c id].
  { repeat split; intros; discriminate. }
  assert (Hid : String c id <> "") by discriminate.
  split; [|split].
  - intros note o w' H. destruct note as [|c' note]; [discriminate|].
    assert (Hnote : String c' note <> "") by discriminate.
    rewrite (cmd_note_eq w w1 e _ _ r xs Hid Hnote Hload Hxs) in H.
    destruct (findIndex _ xs) as [idx|] eqn:Hidx; [|discriminate].
    apply findIndex_Some in Hidx as (o0 & Ho0 & Hp & _). rewrite Ho0 in H.
    rewrite (alter_as_insert _ _ _ _ Ho0) in H.
    destruct (write_ok e); [|discriminate]. injection H as <- <-.
    split; [reflexivity|]. split; [exact Hp|]. apply Hsaved. exact Ho0.
  - intros st o w' H. destruct st as [|c' st]; [discriminate|].
    assert (Hst : String c' st <> "") by discriminate.
    rewrite (cmd_setstatus_eq w w1 e _ _ r xs Hid Hst Hload Hxs) in H.
    destruct (findIndex _ xs) as [idx|] eqn:Hidx; [|discriminate].
    apply findIndex_Some in Hidx as (o0 & Ho0 & Hp & _). rewrite Ho0 in H.
    destruct (write_ok e); [|discriminate]. injection H as <- <-.
    split; [reflexivity|]. split; [exact Hp|]. apply Hsaved. exact Ho0.
  - intros paid o w' H.
    rewrite (cmd_paid_eq w w1 e paid _ r xs Hid Hload Hxs) in H.
    destruct (findIndex _ xs) as [idx|] eqn:Hidx; [|discriminate].
    apply findIndex_Some in Hidx as (o0 & Ho0 & Hp & _). rewrite Ho0 in H.
    destruct (write_ok e); [|discriminate]. injection H as <- <-.
    split; [destruct paid; reflexivity|]. split; [destruct paid; reflexivity|].
    split; [exact Hp|]. apply Hsaved. exact Ho0.
Qed.

Lemma acknowledged_update_is_on_disk_witness :
  let a := sample "abc123" "111111111111111111" "Pending" in
  let w := boot (Json [a]) in
  let e := at_time 1000 true in
  wf w /\
  exists xs', ordersFile (snd (cmd_note e "abc" "call back" w)) = Json xs' /\
              set_notes "call back" a ∈ xs'.
Proof.
  intros a w e.
  destruct (acknowledged_update_is_on_disk w e "abc" (boot_wf _)) as (H & _).
  destruct (H "call back" (set_notes "call back" a)
              (snd (cmd_note e "abc" "call back" w)) eq_refl)
    as (_ & _ & xs' & Hf & _ & Hin).
  split; [exact I|]. exists xs'. split; [exact Hf | exact Hin].
Defined.

(** ** Identifiers *)





(** ** Listing *)

Lemma slice_last_n {A : Type} (n : nat) (l : list A) :
  (0 < n)%nat -> slice (- Z.of_nat n) l = drop (length l - n) l.
Proof.
  intros Hn. unfold slice.
  assert ((- Z.of_nat n <? 0) = true) as -> by (apply Z.ltb_lt; lia).
  f_equal. lia.
Qed.

Lemma filter_sublist {A : Type} (p : A -> bool) (l : list A) :
  List.filter p l `sublist_of` l.
Proof.
  induction l as [|x l IH]; simpl; [constructor|].
  destruct (p x); [apply sublist_skip | apply sublist_cons]; exact IH.
Qed.

(** [!orders] writes nothing.  Without a filter it shows all the orders;
    with a filter, the filter and the statuses being ASCII text, it shows
    the orders whose status is the filter up to the case of the letters A
    to Z.  It shows at most ten, the last ones, in the order of the
    collection, with the number of all that match. *)
Theorem orders_listing
    (w w1 : world) (e : env) (filter : string) (r : ref) (xs : list Order) :
  loadOrders (now_load e) w = (Ok r, w1) ->
  heap w1 !! r = Some xs ->
  (filter <> "" ->
   ascii_only filter = true /\
   forall o, o ∈ xs -> ascii_only (status o) = true) ->
  exists matching,
    matching `sublist_of` xs /\
    (filter = "" -> matching = xs) /\
    (forall o, o ∈ matching <->
       o ∈ xs /\ (filter = "" \/
                  toLowerCase (status o) = toLowerCase filter)) /\
    ordersFile w1 = ordersFile w /\
    fsWrites w1 = fsWrites w /\
    match matching with
    | [] => cmd_orders e filter w = (Ok NoOrders, w1)
    | _ =>
        exists shown,
          cmd_orders e filter w = (Ok (OrderList shown (length matching)), w1) /\
          shown `suffix_of` matching /\
          length shown = Nat.min 10 (length matching)
    end.
Proof.
  intros Hload Hxs _.
  destruct (loadOrders_frame _ _ _ _ Hload) as (Hfile & Hwr & _).
  set (matching :=
         if falsy filter then xs
         else List.filter
                (fun o => String.eqb (toLowerCase (status o)) (toLowerCase filter)) xs).
  exists matching.
  assert (Hcmd : cmd_orders e filter w =
                 match matching with
                 | [] => (Ok NoOrders, w1)
                 | _ => (Ok (OrderList (slice (-10) matching) (length matching)), w1)
                 end).
  { pose proof (with_collection (now_load e) w w1 r xs
      (fun _ ys =>
         let filtered :=
           if falsy filter then ys
           else List.filter
                  (fun o => String.eqb (toLowerCase (status o)) (toLowerCase filter))
                  ys in
         match filtered with
         | [] => ret NoOrders
         | _ => ret (OrderList (slice (-10) filtered) (length filtered))
         end) Hload Hxs) as E.
    open_handler (cmd_orders e filter w) E. cbv zeta. fold matching.
    destruct matching; reflexivity. }
  split; [|split; [|split; [|split; [exact Hfile | split; [exact Hwr|]]]]].
  - unfold matching. destruct (falsy filter); [reflexivity | apply filter_sublist].
  - intros ->. reflexivity.
  - intros o. unfold matching. destruct filter as [|c filter]; simpl falsy; cbv iota.
    + split; [auto | intros [H _]; exact H].
    + rewrite list_elem_of_In, filter_In, <- list_elem_of_In, String.eqb_eq.
      split; [intros [H1 H2]; auto|].
      intros [H1 [H2|H2]]; [discriminate | auto].
  - rewrite Hcmd. destruct matching as [|m ms] eqn:Hm; [reflexivity|].
    exists (slice (-10) (m :: ms)). split; [reflexivity|].
    change (-10) with (- Z.of_nat 10). rewrite slice_last_n by lia.
    split; [apply suffix_drop|]. rewrite length_drop. lia.
Qed.

Lemma orders_listing_witness :
  let w := boot (Json (stock 12)) in
  let e := at_time 1000 true in
  exists shown,
    cmd_orders e "PENDING" w = (Ok (OrderList shown 12), snd (loadOrders 1000 w)) /\
    length shown = 10%nat /\
    (uuid <$> head shown) = Some (numbered 2).
Proof.
  intros w e.
  assert (Hload : loadOrders (now_load e) w = (Ok 0%nat, snd (loadOrders 1000 w)))
    by reflexivity.
  assert (Hxs : heap (snd (loadOrders 1000 w)) !! 0%nat = Some (stock 12))
    by reflexivity.
  assert (Hascii : "PENDING" <> "" ->
            ascii_only "PENDING" = true /\
            forall o, o ∈ stock 12 -> ascii_only (status o) = true).
  { intros _. split; [reflexivity|]. intros o Ho. apply list_elem_of_In in Ho.
    assert (Hall : forallb (fun o => ascii_only (status o)) (stock 12) = true)
      by reflexivity.
    exact (proj1 (forallb_forall _ _) Hall o Ho). }
  destruct (orders_listing w (snd (loadOrders 1000 w)) e "PENDING" 0%nat (stock 12)
              Hload Hxs Hascii) as (matching & _).
  exists (drop 2 (stock 12)). repeat split; reflexivity.
Defined.

(** ** The bot and the cacheless backend *)

(** Served from a state in which a read returns the orders of the file, a
    request leaves the file the cacheless handler leaves. *)
Lemma bot_step_matches_legacy (e : env) (q : Legacy.owner_action) (w : world) :
  read (now_load e) w = Some (Additions.loadOrders (ordersFile w)) ->
  ordersFile (step e (Legacy.to_request q) w)
  = Legacy.serve (write_ok e) (toISOString e) q (ordersFile w).
Proof.
  unfold read. intros Hread.
  destruct (loadOrders (now_load e) w) as [[r|err] w1] eqn:Hload; [|discriminate].
  destruct (loadOrders_frame _ _ _ _ Hload) as (Hfile & _).
  set (xs := Additions.loadOrders (ordersFile w)) in *.
  destruct (cmd_reads_eq w w1 e r xs Hload Hread) as [Horders Horder].
  assert (Hupd : forall id (f : Order -> Order) (k : Order -> reply),
            snd (Legacy.update (write_ok e) id f k (ordersFile w)) =
            match findIndex (has_prefix id) xs with
            | Some idx =>
                match xs !! idx with
                | Some o => ordersFile (stored w1 r (<[idx := f o]> xs) (now_save e)
                                          (write_ok e))
                | None => ordersFile w1
                end
            | None => ordersFile w1
            end).
  { intros id f k. unfold Legacy.update. fold xs.
    destruct (findIndex (has_prefix id) xs) as [idx|] eqn:Hidx; [|simpl; congruence].
    apply findIndex_Some in Hidx as (o & Ho & _). rewrite Ho.
    rewrite (alter_as_insert _ _ _ _ Ho). unfold Additions.saveOrders.
    destruct (write_ok e); simpl.
    - rewrite list_lookup_insert_eq by (eapply lookup_lt_Some; eauto). reflexivity.
    - congruence. }
  destruct q as [filter|id|paid id|id st|id note|a d]; simpl.
  - rewrite Horders, Hfile. unfold Legacy.cmd_orders. fold xs.
    destruct xs; [reflexivity|]. destruct (if falsy filter then _ else _); reflexivity.
  - rewrite Horder. unfold Legacy.cmd_order.
    destruct (falsy id); [reflexivity|]. rewrite Hfile. fold xs.
    destruct (find (has_prefix id) xs); reflexivity.
  - unfold Legacy.cmd_paid. destruct id as [|c id]; [reflexivity|].
    assert (Hid : String c id <> "") by discriminate.
    rewrite (cmd_paid_eq w w1 e paid _ r xs Hid Hload Hread). simpl falsy. cbv iota.
    rewrite Hupd. destruct (findIndex _ xs) as [idx|]; [|reflexivity].
    destruct (xs !! idx); reflexivity.
  - unfold Legacy.cmd_setstatus. destruct id as [|c id]; [reflexivity|].
    destruct st as [|c' st]; [reflexivity|].
    assert (Hid : String c id <> "") by discriminate.
    assert (Hst : String c' st <> "") by discriminate.
    rewrite (cmd_setstatus_eq w w1 e _ _ r xs Hid Hst Hload Hread). simpl falsy.
    simpl orb. cbv iota.
    rewrite Hupd. destruct (findIndex _ xs) as [idx|]; [|reflexivity].
    destruct (xs !! idx); reflexivity.
  - unfold Legacy.cmd_note. destruct id as [|c id]; [reflexivity|].
    destruct note as [|c' note]; [reflexivity|].
    assert (Hid : String c id <> "") by discriminate.
    assert (Hnote : String c' note <> "") by discriminate.
    rewrite (cmd_note_eq w w1 e _ _ r xs Hid Hnote Hload Hread). simpl falsy.
    simpl orb. cbv iota.
    rewrite Hupd. destruct (findIndex _ xs) as [idx|] eqn:Hidx; [|reflexivity].
    apply findIndex_Some in Hidx as (o & Ho & _). rewrite Ho.
    rewrite (alter_as_insert _ _ _ _ Ho). reflexivity.
  - assert (Hdm : a = dm \/ a <> dm) by (destruct a; auto; right; discriminate).
    destruct Hdm as [->|Ha]; [reflexivity|].
    rewrite (on_button_eq w w1 e a d r xs Ha Hload Hread).
    unfold Additions.on_button. fold xs. rewrite <- scan_pending_findLastIndex.
    destruct (scan_pending d xs (length xs)) as [idx|].
    + unfold Additions.saveOrders. destruct a; try congruence;
        destruct (write_ok e); simpl; congruence.
    + destruct a; try congruence; simpl; congruence.
Qed.

Lemma in_step_read (now : Z) (w : world) :
  in_step w -> read now w = Some (Additions.loadOrders (ordersFile w)).
Proof.
  intros (Hwf & Hc & Hcap).
  destruct (loadOrders_spec now w Hwf) as (r & w1 & Hload & Hxs & _).
  unfold read. rewrite Hload, Hxs. f_equal. unfold collection.
  destruct (cache_fresh now w) eqn:Hf.
  - unfold cache_fresh in Hf. unfold wf, cached in *.
    destruct (ordersCache w) as [c|]; [|discriminate].
    destruct Hc as [Hc|Hc]; [destruct Hwf as [ys Hys]; congruence|].
    rewrite Hc. reflexivity.
  - destruct (ordersFile w) as [| |ys]; simpl in *; try reflexivity.
    destruct (MAX_ORDERS_MEMORY <? Z.of_nat (length ys)) eqn:Hlt; [|reflexivity].
    apply Z.ltb_lt in Hlt. lia.
Qed.

Lemma in_step_step (e : env) (q : Legacy.owner_action) (w : world) :
  in_step w -> write_ok e = true -> in_step (step e (Legacy.to_request q) w).
Proof.
  intros Hin Hok. pose proof (in_step_read (now_load e) w Hin) as Hread.
  destruct Hin as (Hwf & Hc & Hcap).
  destruct (loadOrders_spec (now_load e) w Hwf) as (r & w1 & Hload & _ & Hwf1 & Hfile & _).
  unfold read in Hread. rewrite Hload in Hread.
  set (xs := Additions.loadOrders (ordersFile w)) in *.
  destruct (step_cases e (Legacy.to_request q) w w1 r xs Hload Hread)
    as [-> | [-> | [(idx & o & f & Ho & _ & ->) | (b & Hq & _)]]].
  - repeat split; auto.
  - split; [exact Hwf1|]. rewrite Hfile. fold xs. split; [|exact Hcap].
    right. eapply cached_after_load; eauto.
  - rewrite Hok. split; [eapply stored_wf; eauto|]. simpl.
    split; [right; eapply lookup_stored; eauto|].
    rewrite length_insert. exact Hcap.
  - destruct q; discriminate Hq.
Qed.

(** Started on the same file with at most 500 orders, the requests being
    served one at a time, each handler finishing before the next one
    starts, and every write going through, the bot with its cache and the
    backend without one leave the same file after the same owner commands
    and button clicks, whatever the clock reads at each request, that is
    whether the cache is fresh or stale when it comes.  Handlers of the bot
    that overlap at an [await] are not covered. *)
Theorem cached_bot_matches_cacheless_backend
    (f : disk) (qs : list (env * Legacy.owner_action)) :
  Z.of_nat (length (Additions.loadOrders f)) <= MAX_ORDERS_MEMORY ->
  writes_succeed (as_trace qs) ->
  ordersFile (run (as_trace qs) (boot f)) = legacy_run qs f.
Proof.
  intros Hcap Hok.
  assert (Hgen : forall w, in_step w -> writes_succeed (as_trace qs) ->
                 ordersFile (run (as_trace qs) w) = legacy_run qs (ordersFile w)).
  { clear. induction qs as [|[e q] rest IH]; intros w Hin Hok; [reflexivity|].
    simpl in *. apply Forall_cons in Hok as [He Hrest]. simpl in He.
    rewrite <- (bot_step_matches_legacy e q w) by (apply in_step_read; exact Hin).
    apply IH; [apply in_step_step; auto | exact Hrest]. }
  apply (Hgen (boot f)); [|exact Hok].
  split; [exact I|]. split; [left; reflexivity | exact Hcap].
Qed.

Lemma cached_bot_matches_cacheless_backend_witness :
  let a := sample "abc123" "111111111111111111" "Pending" in
  let b := sample "abd456" "111111111111111111" "Pending" in
  let qs :=
    [(at_time 1000 true, Legacy.LNote "abc" "call back");
     (at_time 2000 true, Legacy.LButton accept "111111111111111111");
     (at_time 50000 true, Legacy.LPaid true "abd");
     (at_time 51000 true, Legacy.LButton decline "111111111111111111")] in
  Z.of_nat (length (Additions.loadOrders (Json [a; b]))) <= MAX_ORDERS_MEMORY /\
  writes_succeed (as_trace qs) /\
  ordersFile (run (as_trace qs) (boot (Json [a; b]))) = legacy_run qs (Json [a; b]) /\
  legacy_run qs (Json [a; b])
    = Json [set_status "Declined" (set_notes "call back" a);
            mark (at_time 50000 true) true (set_status "Accepted" b)].
Proof.
  intros a b qs.
  assert (Hcap : Z.of_nat (length (Additions.loadOrders (Json [a; b])))
                 <= MAX_ORDERS_MEMORY) by (vm_compute; discriminate).
  assert (Hok : writes_succeed (as_trace qs)) by (repeat constructor).
  split; [exact Hcap|]. split; [exact Hok|].
  split; [exact (cached_bot_matches_cacheless_backend (Json [a; b]) qs Hcap Hok)|].
  reflexivity.
Defined.

(** * Availability *)

Lemma status_after_snoc (cmds : list string) (cmd : string) :
  Status.after (cmds ++ [cmd]) = snd (Status.on_command cmd (Status.after cmds)).
Proof. unfold Status.after. rewrite fold_left_app. reflexivity. Qed.

Lemma status_command_cases (cmd st : string) :
  (existsb (String.eqb cmd) ["open"; "slow"; "close"] = false /\
   Status.on_command cmd st = (None, st)) \/
  (existsb (String.eqb cmd) ["open"; "slow"; "close"] = true /\
   exists s st',
     st' = (if String.eqb cmd "close" then "closed" else cmd) /\
     (st' = "open" \/ st' = "slow" \/ st' = "closed") /\
     Status.STATUS_DISPLAY st' = Some s /\
     Status.on_command cmd st = (Some (Ok s), st')).
Proof.
  unfold Status.on_command. simpl existsb.
  destruct (String.eqb_spec cmd "open") as [->|H1].
  { right. split; [reflexivity|]. eexists _, _. repeat split; auto. }
  destruct (String.eqb_spec cmd "slow") as [->|H2].
  { right. split; [reflexivity|]. eexists _, _. repeat split; auto. }
  destruct (String.eqb_spec cmd "close") as [->|H3].
  { right. split; [reflexivity|]. eexists _, _. repeat split; auto. }
  left. split; reflexivity.
Qed.

(** Whatever commands were received, and in whatever order, the status is
    one of [open], [slow] and [closed] and has its display entry, so that
    neither the reply to a status command nor [GET /status] ever fails on a
    missing entry.  The status is the one named by the last of the commands
    [!open], [!slow] and [!close] ([closed] for the latter), and [open] when
    there was none. *)
Theorem status_always_displayable (cmds : list string) :
  (Status.after cmds = "open" \/ Status.after cmds = "slow"
   \/ Status.after cmds = "closed") /\
  (exists s, Status.get_status (Status.after cmds)
             = Ok (Status.after cmds, Status.label s, Status.emoji s)) /\
  (forall cmd st err, fst (Status.on_command cmd st) <> Some (Throw err)) /\
  (forall pre cmd post,
     cmds = pre ++ cmd :: post ->
     existsb (String.eqb cmd) ["open"; "slow"; "close"] = true ->
     Forall (fun c => existsb (String.eqb c) ["open"; "slow"; "close"] = false) post ->
     Status.after cmds = if String.eqb cmd "close" then "closed" else cmd) /\
  (Forall (fun c => existsb (String.eqb c) ["open"; "slow"; "close"] = false) cmds ->
   Status.after cmds = "open").
Proof.
  assert (Hinv : forall l, Status.after l = "open" \/ Status.after l = "slow"
                           \/ Status.after l = "closed").
  { induction l as [|c l IH] using rev_ind; [left; reflexivity|].
    rewrite status_after_snoc.
    destruct (status_command_cases c (Status.after l))
      as [[_ ->] | [_ (s & st' & _ & Hst & _ & ->)]]; auto. }
  assert (Hskip : forall post st,
            Forall (fun c => existsb (String.eqb c) ["open"; "slow"; "close"] = false) post ->
            fold_left (fun st cmd => snd (Status.on_command cmd st)) post st = st).
  { induction post as [|c post IH]; intros st Hpost; [reflexivity|].
    apply Forall_cons in Hpost as [Hc Hpost]. simpl.
    destruct (status_command_cases c st) as [[_ ->] | [Hc' _]]; [|congruence].
    apply IH. exact Hpost. }
  split; [apply Hinv|]. split; [|split; [|split]].
  - unfold Status.get_status.
    destruct (Hinv cmds) as [-> | [-> | ->]]; eexists; reflexivity.
  - intros cmd st err.
    destruct (status_command_cases cmd st)
      as [[_ ->] | [_ (s & st' & _ & _ & _ & ->)]]; discriminate.
  - intros pre cmd post -> Hcmd Hpost. unfold Status.after.
    rewrite fold_left_app. simpl. rewrite Hskip by exact Hpost.
    destruct (status_command_cases cmd
                (fold_left (fun st c => snd (Status.on_command c st)) pre Status.initial))
      as [[Hc _] | [_ (s & st' & -> & _ & _ & ->)]]; [congruence | reflexivity].
  - intros Hnone. apply Hskip. exact Hnone.
Qed.

(** * The inquiry channel *)

(** [getChannel] reports that no channel is configured exactly when the
    configuration it loads has no channel: the file parses and holds none,
    or there is no readable file and the environment names none.  A file
    that parses is all that counts: the environment variable is looked at
    only when the file is missing or does not parse. *)
Theorem not_configured_iff
    (fetch : string -> bool) (file : json_file Config.config) (envId : option string) :
  (Config.getChannel fetch file envId = inl Config.NotConfigured <->
   match file with
   | Holds cfg =>
       Config.inquiryChannelId cfg = None \/ Config.inquiryChannelId cfg = Some ""
   | Missing | Unparsable => envId = None \/ envId = Some ""
   end) /\
  (forall cfg, Config.getChannel fetch (Holds cfg) envId
               = Config.getChannel fetch (Holds cfg) None) /\
  (forall id, Config.getChannel fetch file envId = inr id ->
              id <> "" /\ fetch id = true /\
              Config.inquiryChannelId (Config.loadConfig file envId) = Some id).
Proof.
  unfold Config.getChannel. split; [|split].
  - destruct file as [| |cfg]; simpl.
    + destruct envId as [[|c s]|]; simpl; [tauto| |tauto].
      destruct (fetch (String c s)); split; try discriminate;
        intros [H|H]; discriminate.
    + destruct envId as [[|c s]|]; simpl; [tauto| |tauto].
      destruct (fetch (String c s)); split; try discriminate;
        intros [H|H]; discriminate.
    + destruct (Config.inquiryChannelId cfg) as [[|c s]|]; simpl; [tauto| |tauto].
      destruct (fetch (String c s)); split; try discriminate;
        intros [H|H]; discriminate.
  - reflexivity.
  - intros id.
    destruct (Config.inquiryChannelId (Config.loadConfig file envId)) as [[|c s]|];
      simpl; try discriminate.
    destruct (fetch (String c s)) eqn:Hf; [|discriminate].
    intros [= <-]. split; [discriminate | split; auto].
Qed.

(** For a [config.json] that is missing, does not parse or holds an
    object: once [!setchannel] has answered that the channel is set,
    [getChannel] returns that channel whenever it can be fetched, whatever
    the environment and whatever that object held before; the other keys of
    the object are kept.  When the channel cannot be fetched or the file cannot be
    written, the answer is that the channel was not found and the file is
    as before. *)
Theorem setchannel_then_getChannel
    (channelId id : string) (file : json_file Config.config) (envId : option string) :
  channelId <> "" -> id <> "" ->
  (exists file',
     Config.cmd_setchannel channelId (Some id) true file envId
       = (Config.ChannelSet id, file') /\
     (forall fetch envId',
        Config.getChannel fetch file' envId'
        = if fetch id then inr id else inl Config.FetchFailed) /\
     (forall envId',
        Config.others (Config.loadConfig file' envId')
        = Config.others (Config.loadConfig file envId))) /\
  Config.cmd_setchannel channelId (Some id) false file envId
    = (Config.ChannelNotFound, file) /\
  (forall ok, Config.cmd_setchannel channelId None ok file envId
              = (Config.ChannelNotFound, file)) /\
  (forall reply file' fetched ok,
     Config.cmd_setchannel channelId fetched ok file envId = (reply, file') ->
     file' <> file -> exists id', reply = Config.ChannelSet id' /\ fetched = Some id').
Proof.
  intros Hc Hid. unfold Config.cmd_setchannel. rewrite (falsy_false _ Hc).
  split; [|split; [reflexivity | split; [reflexivity|]]].
  - eexists. split; [reflexivity|]. split.
    + intros fetch envId'. unfold Config.getChannel. simpl.
      rewrite (falsy_false _ Hid). reflexivity.
    + reflexivity.
  - intros reply file' [id'|] ok; simpl.
    + destruct ok; simpl; intros [= <- <-] Hne; [eauto | congruence].
    + intros [= <- <-] Hne. congruence.
Qed.

Lemma setchannel_then_getChannel_witness :
  let file := Holds (Config.mkConfig None [("theme", "1")]) in
  "123456789012345678" <> "" /\
  Config.getChannel (fun _ => true) file (Some "999") = inl Config.NotConfigured /\
  exists file',
    Config.cmd_setchannel "123456789012345678" (Some "123456789012345678") true
      file (Some "999") = (Config.ChannelSet "123456789012345678", file') /\
    Config.getChannel (fun _ => true) file' None = inr "123456789012345678".
Proof.
  intros file.
  assert (Hne : "123456789012345678" <> "") by discriminate.
  destruct (setchannel_then_getChannel "123456789012345678" "123456789012345678"
              file (Some "999") Hne Hne) as ((file' & Hset & Hget & _) & _).
  split; [exact Hne|]. split; [reflexivity|].
  exists file'. split; [exact Hset|]. apply (Hget (fun _ => true) None).
Defined.

(** * Featured work *)

(** [!removework] takes out one entry, the first one whose [id] is the
    argument, and leaves the others in their order; when the write fails
    the file is as before.  With no such entry it answers so and writes
    nothing. *)
Theorem removework_removes_first_match
    (arg : string) (file : json_file (list Work.entry)) :
  arg <> "" ->
  match findIndex (fun e => String.eqb (Work.id e) arg) (Work.loadWork file) with
  | Some idx =>
      exists before removed after,
        Work.loadWork file = before ++ removed :: after /\
        length before = idx /\
        Work.id removed = arg /\
        (forall y, y ∈ before -> Work.id y <> arg) /\
        Work.cmd_removework true arg file
          = (Ok (Work.Removed removed), Holds (before ++ after)) /\
        Work.cmd_removework false arg file = (Throw DiskError, file)
  | None =>
      (forall y, y ∈ Work.loadWork file -> Work.id y <> arg) /\
      forall ok, Work.cmd_removework ok arg file = (Ok (Work.NoEntry arg), file)
  end.
Proof.
  intros Harg. unfold Work.cmd_removework. rewrite (falsy_false _ Harg).
  set (entries := Work.loadWork file).
  destruct (findIndex _ entries) as [idx|] eqn:Hidx.
  - apply findIndex_Some in Hidx as (removed & Hr & Hp & Hmin).
    exists (take idx entries), removed, (drop (S idx) entries).
    assert (Hlt : (idx < length entries)%nat) by (eapply lookup_lt_Some; eauto).
    rewrite Hr. unfold Work.saveWork. rewrite delete_take_drop.
    split; [symmetry; apply take_drop_middle; exact Hr|].
    split; [rewrite length_take; lia|].
    split; [apply String.eqb_eq; exact Hp|].
    split; [|split; reflexivity].
    intros y Hy. apply list_elem_of_lookup in Hy as [j Hj].
    pose proof (lookup_lt_Some _ _ _ Hj) as Hjl. rewrite length_take in Hjl.
    rewrite lookup_take_lt in Hj by lia.
    apply String.eqb_neq. apply (Hmin j y); [lia | exact Hj].
  - split; [|reflexivity].
    intros y Hy. apply String.eqb_neq.
    apply (proj1 (findIndex_None _ _) Hidx y Hy).
Qed.

Lemma removework_removes_first_match_witness :
  let a := Work.mkEntry "7f3c2a10" "Guard" "Moderation" "Alpha" "https://discord.gg/a"
             "2024-05-01T10:00:00.000Z" in
  let b := Work.mkEntry "9b1d44e2" "Coins" "Economy" "Beta" "https://discord.gg/b"
             "2024-05-02T10:00:00.000Z" in
  let c := Work.mkEntry "9b1d44e2" "Tunes" "Music" "Gamma" "https://discord.gg/c"
             "2024-05-03T10:00:00.000Z" in
  "9b1d44e2" <> "" /\
  Work.cmd_removework true "9b1d44e2" (Holds [a; b; c])
    = (Ok (Work.Removed b), Holds [a; c]).
Proof.
  intros a b c.
  assert (Hne : "9b1d44e2" <> "") by discriminate.
  pose proof (removework_removes_first_match "9b1d44e2" (Holds [a; b; c]) Hne) as H.
  change (findIndex (fun e => String.eqb (Work.id e) "9b1d44e2")
            (Work.loadWork (Holds [a; b; c]))) with (Some 1%nat) in H.
  destruct H as (before & removed & after & Hload & Hlen & _ & _ & Hcmd & _).
  split; [exact Hne|]. rewrite Hcmd.
  destruct before as [|x [|y before]]; try discriminate Hlen.
  simpl in Hload. injection Hload as <- <- <-. reflexivity.
Defined.

(** [!removework] at the index [findIndex] gives. *)
Lemma removework_first_match_aux
    (arg : string) (file : json_file (list Work.entry)) (idx : nat) :
  arg <> "" ->
  findIndex (fun e => String.eqb (Work.id e) arg) (Work.loadWork file) = Some idx ->
  Work.cmd_removework true arg file
  = (match Work.loadWork file !! idx with
     | Some removed => Ok (Work.Removed removed)
     | None => Throw TypeError
     end,
     match Work.loadWork file !! idx with
     | Some _ => Holds (delete idx (Work.loadWork file))
     | None => file
     end).
Proof.
  intros Harg Hidx. unfold Work.cmd_removework.
  rewrite (falsy_false _ Harg), Hidx.
  destruct (Work.loadWork file !! idx); reflexivity.
Qed.

(** [!addwork] with four or more fields, none of them empty, and an invite
    that begins with [http] appends one entry made of the first four
    fields, with the first eight characters of the random identifier as its
    [id]; [GET /work] then returns it last, after the entries that were
    there.  Removing that [id] right away gives back the list as it was,
    unless an older entry already carried the same [id]. *)
Theorem addwork_then_removework
    (uuid iso botName description serverName invite : string)
    (more : list string) (file : json_file (list Work.entry)) :
  Forall (fun p => p <> "") (botName :: description :: serverName :: invite :: more) ->
  startsWith invite "http" = true ->
  let parts := botName :: description :: serverName :: invite :: more in
  let e := Work.mkEntry (substring 0 8 uuid) botName description serverName invite iso in
  let entries := Work.loadWork file in
  Work.cmd_addwork uuid iso true parts file
    = (Ok (Work.Added e), Holds (entries ++ [e])) /\
  Work.get_work (snd (Work.cmd_addwork uuid iso true parts file)) = entries ++ [e] /\
  Work.cmd_addwork uuid iso false parts file = (Throw DiskError, file) /\
  (uuid <> "" ->
   (forall y, y ∈ entries -> Work.id y <> substring 0 8 uuid) ->
   Work.cmd_removework true (substring 0 8 uuid) (Holds (entries ++ [e]))
     = (Ok (Work.Removed e), Holds entries)).
Proof.
  intros Hparts Hinv parts e entries.
  assert (Hno : existsb falsy parts = false).
  { apply not_true_is_false. intros H. apply existsb_exists in H as (p & Hp & Hf).
    apply falsy_empty in Hf. rewrite Forall_forall in Hparts.
    apply (Hparts p); [apply list_elem_of_In; exact Hp | exact Hf]. }
  assert (Hadd : Work.cmd_addwork uuid iso true parts file
                 = (Ok (Work.Added e), Holds (entries ++ [e]))).
  { unfold Work.cmd_addwork. rewrite Hno.
    change ((length parts <? 4)%nat) with false.
    cbv beta iota delta [orb parts]. rewrite Hinv. reflexivity. }
  split; [exact Hadd|]. split; [rewrite Hadd; reflexivity|]. split.
  { unfold Work.cmd_addwork. rewrite Hno.
    change ((length parts <? 4)%nat) with false.
    cbv beta iota delta [orb parts]. rewrite Hinv. reflexivity. }
  intros Hu Hfresh.
  assert (Hshort : substring 0 8 uuid <> "").
  { destruct uuid; [congruence | discriminate]. }
  pose proof (removework_first_match_aux (substring 0 8 uuid)
                (Holds (entries ++ [e])) (length entries) Hshort) as Haux.
  simpl Work.loadWork in Haux.
  assert (Hidx : findIndex (fun x => String.eqb (Work.id x) (substring 0 8 uuid))
                   (entries ++ [e]) = Some (length entries)).
  { apply findIndex_Some. exists e. split; [|split].
    - rewrite lookup_app_r by lia. rewrite Nat.sub_diag. reflexivity.
    - apply String.eqb_refl.
    - intros j y Hj Hy. rewrite lookup_app_l in Hy by lia.
      apply String.eqb_neq. apply Hfresh. apply list_elem_of_lookup. eauto. }
  assert (Hlast : (entries ++ [e]) !! length entries = Some e).
  { rewrite lookup_app_r by lia. rewrite Nat.sub_diag. reflexivity. }
  assert (Hdel : delete (length entries) (entries ++ [e]) = entries).
  { rewrite delete_take_drop, take_app_length.
    rewrite drop_ge by (rewrite length_app; simpl; lia). apply app_nil_r. }
  rewrite (Haux Hidx), Hlast, Hdel. reflexivity.
Qed.

Lemma addwork_then_removework_witness :
  let a := Work.mkEntry "7f3c2a10" "Guard" "Moderation" "Alpha" "https://discord.gg/a"
             "2024-05-01T10:00:00.000Z" in
  let e := Work.mkEntry "9b1d44e2" "Coins" "Economy" "Beta" "https://discord.gg/b"
             "2024-05-02T10:00:00.000Z" in
  Work.cmd_addwork "9b1d44e2-5f0a-4c1e-8a52-0c6d1e2f3a4b" "2024-05-02T10:00:00.000Z" true
    ["Coins"; "Economy"; "Beta"; "https://discord.gg/b"] (Holds [a])
    = (Ok (Work.Added e), Holds [a; e]) /\
  Work.cmd_removework true "9b1d44e2" (Holds [a; e]) = (Ok (Work.Removed e), Holds [a]).
Proof.
  intros a e.
  assert (Hparts : Forall (fun p => p <> "")
                     ["Coins"; "Economy"; "Beta"; "https://discord.gg/b"]).
  { repeat (constructor; [discriminate|]). constructor. }
  destruct (addwork_then_removework "9b1d44e2-5f0a-4c1e-8a52-0c6d1e2f3a4b"
              "2024-05-02T10:00:00.000Z" "Coins" "Economy" "Beta"
              "https://discord.gg/b" [] (Holds [a]) Hparts eq_refl)
    as (Hadd & _ & _ & Hrem).
  split; [exact Hadd|].
  apply Hrem; [discriminate|].
  intros y Hy. apply list_elem_of_In in Hy. destruct Hy as [<- | []]. discriminate.
Defined.

(** [!addwork] writes nothing when a field is missing or empty, or when the
    invite does not begin with [http]: whenever the file changes, there were
    at least four fields, none empty, the fourth beginning with [http], and
    the file now holds the former entries followed by exactly one more. *)
Theorem addwork_writes_only_valid_entries
    (uuid iso : string) (ok : bool) (parts : list string)
    (file : json_file (list Work.entry)) :
  snd (Work.cmd_addwork uuid iso ok parts file) <> file ->
  ok = true /\
  (4 <= length parts)%nat /\
  Forall (fun p => p <> "") parts /\
  exists e,
    parts !! 0%nat = Some (Work.botName e) /\
    parts !! 1%nat = Some (Work.description e) /\
    parts !! 2%nat = Some (Work.serverName e) /\
    parts !! 3%nat = Some (Work.invite e) /\
    startsWith (Work.invite e) "http" = true /\
    snd (Work.cmd_addwork uuid iso ok parts file) = Holds (Work.loadWork file ++ [e]).
Proof.
  unfold Work.cmd_addwork. intros H.
  destruct (length parts <? 4)%nat eqn:Hlen; [simpl in H; congruence|].
  destruct (existsb falsy parts) eqn:Hex; [simpl in H; congruence|].
  cbn [orb] in *.
  destruct parts as [|b [|d [|s [|i more]]]]; try (simpl in H; congruence).
  destruct (startsWith i "http") eqn:Hi; [|simpl in H; congruence].
  cbn [negb] in *. destruct ok; [|simpl in H; congruence].
  split; [reflexivity|]. split; [apply Nat.ltb_ge in Hlen; exact Hlen|]. split.
  - apply Forall_forall. intros p Hp Hemp. apply list_elem_of_In in Hp.
    assert (existsb falsy (b :: d :: s :: i :: more) = true); [|congruence].
    apply existsb_exists. exists p. split; [exact Hp | apply falsy_empty; exact Hemp].
  - eexists (Work.mkEntry _ b d s i _). simpl.
    repeat (split; [reflexivity|]). split; [exact Hi | reflexivity].
Qed.

Lemma addwork_writes_only_valid_entries_witness :
  exists e,
    Work.botName e = "Coins" /\
    snd (Work.cmd_addwork "9b1d44e2-5f0a-4c1e-8a52-0c6d1e2f3a4b"
           "2024-05-02T10:00:00.000Z" true
           ["Coins"; "Economy"; "Beta"; "https://discord.gg/b"] Missing)
    = Holds [e].
Proof.
  assert (Hch : snd (Work.cmd_addwork "9b1d44e2-5f0a-4c1e-8a52-0c6d1e2f3a4b"
                       "2024-05-02T10:00:00.000Z" true
                       ["Coins"; "Economy"; "Beta"; "https://discord.gg/b"] Missing)
                <> Missing) by discriminate.
  destruct (addwork_writes_only_valid_entries _ _ _ _ _ Hch)
    as (_ & _ & _ & e & Hb & _ & _ & _ & _ & Hfile).
  exists e. split; [injection Hb as <-; reflexivity | exact Hfile].
Defined.

(** * Visit counter *)

(** A counted visit whose write succeeds adds one. *)
Lemma visit_counted (file : json_file Visits.data) :
  Visits.count_or_zero (Visits.loadVisits (Visits.serve (Visits.Counted true) file))
  = Visits.count_or_zero (Visits.loadVisits file) + 1.
Proof. destruct file as [| |[[c|]]]; reflexivity. Qed.

(** Any other request leaves the file as it is. *)
Lemma visit_not_counted (ev : Visits.event) (file : json_file Visits.data) :
  ev <> Visits.Counted true -> Visits.serve ev file = file.
Proof. destruct ev as [[]|]; [congruence | |]; intros _; destruct file as [| |[[c|]]]; reflexivity. Qed.

(** The counter counts: after any sequence of [POST /visit] requests that
    do not overlap, each one having read and written the file before the
    next one reads it, the file holds the count it started from plus the
    number of requests that were neither rate limited nor lost to a failed
    write, and a request that is not counted leaves the file unchanged.  A
    missing or unparsable file starts from zero.  The count the file starts
    from is a whole number, not negative, and the counts stay below 2^53,
    where the addition of the code is exact.  Requests that overlap between
    the read and the write are not covered. *)
Theorem visits_count_written_visits
    (evs : list Visits.event) (file : json_file Visits.data) (c : Z) :
  Visits.count_or_zero (Visits.loadVisits file) = c ->
  0 <= c ->
  c + Visits.counted evs < 2 ^ 53 ->
  Visits.count_or_zero (Visits.loadVisits (visits_after evs file))
    = c + Visits.counted evs /\
  (Visits.counted evs = 0 -> visits_after evs file = file) /\
  Visits.count_or_zero (Visits.loadVisits (visits_after evs Missing))
    = Visits.counted evs /\
  Visits.count_or_zero (Visits.loadVisits (visits_after evs Unparsable))
    = Visits.counted evs.
Proof.
  intros Hc _ _.
  assert (Hpos : forall es, 0 <= Visits.counted es).
  { intros es. unfold Visits.counted.
    induction es as [|[[]|] es IH]; simpl; lia. }
  assert (Hgen : forall es f,
            Visits.count_or_zero (Visits.loadVisits (visits_after es f))
            = Visits.count_or_zero (Visits.loadVisits f) + Visits.counted es).
  { induction es as [|ev es IH]; intros f.
    - unfold visits_after, Visits.counted. simpl. lia.
    - change (visits_after (ev :: es) f) with (visits_after es (Visits.serve ev f)).
      rewrite IH.
      assert (Hev : ev = Visits.Counted true \/ ev <> Visits.Counted true).
      { destruct ev as [[]|]; [left; reflexivity | right; discriminate | right; discriminate]. }
      destruct Hev as [-> | Hev].
      + rewrite visit_counted. unfold Visits.counted. simpl. lia.
      + rewrite (visit_not_counted _ _ Hev).
        destruct ev as [[]|]; [congruence | |]; unfold Visits.counted; simpl; lia. }
  split; [rewrite Hgen, Hc; reflexivity|]. split.
  - clear Hc. revert file. induction evs as [|ev evs IH]; intros file H0; [reflexivity|].
    change (visits_after (ev :: evs) file) with (visits_after evs (Visits.serve ev file)).
    assert (Hev : ev <> Visits.Counted true).
    { intros ->. pose proof (Hpos evs). unfold Visits.counted in *. simpl in H0. lia. }
    rewrite (visit_not_counted _ _ Hev). apply IH.
    destruct ev as [[]|]; [congruence | |]; unfold Visits.counted in *; simpl in H0; lia.
  - split; rewrite Hgen; reflexivity.
Qed.

Lemma visits_count_written_visits_witness :
  Visits.count_or_zero (Visits.loadVisits
    (visits_after [Visits.Counted true; Visits.Limited; Visits.Counted false;
                   Visits.Counted true]
       (Holds (Visits.mkData (Some 41)))))
  = 43.
Proof.
  refine (proj1 (visits_count_written_visits
            [Visits.Counted true; Visits.Limited; Visits.Counted false;
             Visits.Counted true]
            (Holds (Visits.mkData (Some 41))) 41 eq_refl _ _)).
  - lia.
  - vm_compute. reflexivity.
Defined.
